(** * Antioch [Kinetics]: species mass sources of a reaction set

    A shallow embedding of [antioch/kinetics.h].  The class template
    [Kinetics<NumericType>] is embedded over an arbitrary numeric type that
    provides the operators the code uses; the member function
    [compute_mass_sources] is embedded as a computation over the two objects
    it mutates (the work array of the instance and the caller's
    [mass_sources] vector), with the two ways it can leave its normal path
    made explicit: a failed [antioch_assert_*] and an [operator[]] past the
    end of a [std::vector]. *)

From Stdlib Require Import ZArith Ring Lia Floats Uint63.
From stdpp Require Import base option list.

Set Default Proof Using "Type".

(** ** The numeric type parameter *)

(** The operations [kinetics.h] applies to values of the template parameter
    [NumericType]: the literal [0.0], [-=], [+=], [*=], the product
    [static_cast<NumericType>(stoich) * rate] and the comparison [>] of the
    assertions.  [num_one] and [num_opp] are not used by the code; they name
    the unit and the negation the properties speak about.  [unsigned int]
    values are natural numbers: the code only counts with them and never
    leaves their range. *)
Class Numeric (NumericType : Type) : Type := {
  num_zero : NumericType;
  num_one : NumericType;
  num_add : NumericType → NumericType → NumericType;
  num_sub : NumericType → NumericType → NumericType;
  num_mul : NumericType → NumericType → NumericType;
  num_opp : NumericType → NumericType;
  num_of_uint : nat → NumericType;
  num_gt : NumericType → NumericType → bool
}.

Declare Scope num_scope.
Delimit Scope num_scope with num.
Infix "+" := num_add : num_scope.
Infix "-" := num_sub : num_scope.
Infix "*" := num_mul : num_scope.
Notation "- x" := (num_opp x) : num_scope.

(** A numeric type computes exactly when its operations form a commutative
    ring and the conversion from [unsigned int] is the canonical one. *)
Class ExactArithmetic (NumericType : Type) `{Numeric NumericType} : Prop := {
  exact_ring :
    ring_theory num_zero num_one num_add num_mul num_sub num_opp
                (@eq NumericType);
  of_uint_0 : num_of_uint 0 = num_zero;
  of_uint_S : ∀ n, num_of_uint (S n) = (num_one + num_of_uint n)%num
}.

(** Integers: an exact numeric type. *)
#[export] Instance Z_numeric : Numeric Z := {|
  num_zero := 0%Z;
  num_one := 1%Z;
  num_add := Z.add;
  num_sub := Z.sub;
  num_mul := Z.mul;
  num_opp := Z.opp;
  num_of_uint := Z.of_nat;
  num_gt := Z.gtb
|}.

(** IEEE 754 binary64, the [double] instantiation.  The conversion from
    [unsigned int] goes through the 63-bit integers, which hold every
    32-bit value, and is exact. *)
#[export] Instance double_numeric : Numeric float := {|
  num_zero := 0%float;
  num_one := 1%float;
  num_add := PrimFloat.add;
  num_sub := PrimFloat.sub;
  num_mul := PrimFloat.mul;
  num_opp := PrimFloat.opp;
  num_of_uint := λ n, PrimFloat.of_uint63 (Uint63.of_Z (Z.of_nat n));
  num_gt := λ x y, PrimFloat.ltb y x
|}.

(** The sum of a list of numbers. *)
Definition num_sum `{Numeric NumericType} (l : list NumericType) : NumericType :=
  foldr num_add num_zero l.

(** ** Control flow: state, assertions and undefined behaviour *)

(** How a call ends: it returns, an [antioch_assert_*] fails and raises the
    library's error, or an index passes the end of a vector. *)
Inductive outcome (A : Type) : Type :=
  | Returned (a : A)
  | AssertionFailed
  | OutOfBounds.
Arguments Returned {A} a.
Arguments AssertionFailed {A}.
Arguments OutOfBounds {A}.

(** A computation over a mutable state [St]: the state it leaves goes with
    every outcome, as the objects of a C++ call keep what was written to
    them when an exception leaves the call. *)
Definition Exec (St A : Type) : Type := St → outcome A * St.

Definition exec_ret {St A} (a : A) : Exec St A := λ s, (Returned a, s).

Definition exec_bind {St A B} (f : A → Exec St B) (c : Exec St A) : Exec St B :=
  λ s, match c s with
       | (Returned a, s') => f a s'
       | (AssertionFailed, s') => (AssertionFailed, s')
       | (OutOfBounds, s') => (OutOfBounds, s')
       end.

#[export] Instance exec_mret {St} : MRet (Exec St) := @exec_ret St.
#[export] Instance exec_mbind {St} : MBind (Exec St) := @exec_bind St.

(** Modelled from the spec: the assertion macros of [antioch_asserts.h],
    which is not part of the sources at hand.  Precondition violations are
    caught by assertion-style checks at the top of the computation and are
    fatal to it; this is the validating build, in which a failed assertion
    raises the error and the call is left at once. *)
Definition antioch_assert {St} (asserted : bool) : Exec St unit :=
  λ s, (if asserted then Returned () else AssertionFailed, s).

(** Modelled from the spec: [antioch_assert_greater(expr1, expr2)] checks
    [expr1 > expr2]. *)
Definition antioch_assert_greater `{Numeric NumericType} {St}
    (expr1 expr2 : NumericType) : Exec St unit :=
  antioch_assert (num_gt expr1 expr2).

(** Modelled from the spec: [antioch_assert_equal_to(expr1, expr2)] checks
    [expr1 == expr2], here on two counts. *)
Definition antioch_assert_equal_to {St} (expr1 expr2 : nat) : Exec St unit :=
  antioch_assert (bool_decide (expr1 = expr2)).

(** [for (unsigned int i = first; i < first + count; i++) body(i)] *)
Fixpoint for_range {St} (first count : nat) (body : nat → Exec St unit)
    : Exec St unit :=
  match count with
  | 0 => mret ()
  | S count' => body first ;; for_range (S first) count' body
  end.

(** [for (unsigned int i = 0; i < n; i++) body(i)] *)
Definition for_upto {St} (n : nat) (body : nat → Exec St unit) : Exec St unit :=
  for_range 0 n body.

(** ** The collaborators *)

Module Reaction.

(** Modelled from the spec: the class [Reaction] of [antioch/reaction.h],
    of which only the include line is at hand.  A reaction is an ordered
    list of reactant entries and an ordered list of product entries, each
    a species index with its stoichiometric coefficient. *)
Record t : Type := Build {
  reactants : list (nat * nat);
  products : list (nat * nat)
}.

(** Modelled from the spec: the accessors of a reaction.  The counts are
    the lengths of the two lists; entry [r] is read by its position, which
    the loops keep below the count. *)
Definition n_reactants (reaction : t) : nat := length (reactants reaction).
Definition n_products (reaction : t) : nat := length (products reaction).

Definition reactant_id (reaction : t) (r : nat) : nat :=
  (nth r (reactants reaction) (0, 0)).1.
Definition reactant_stoichiometric_coefficient (reaction : t) (r : nat) : nat :=
  (nth r (reactants reaction) (0, 0)).2.
Definition product_id (reaction : t) (p : nat) : nat :=
  (nth p (products reaction) (0, 0)).1.
Definition product_stoichiometric_coefficient (reaction : t) (p : nat) : nat :=
  (nth p (products reaction) (0, 0)).2.

Definition empty : t := Build [] [].

End Reaction.

Module ChemicalMixture.
Section WithNumericType.
Context {NumericType : Type} `{Numeric NumericType}.

(** Modelled from the spec: the class [ChemicalMixture], only declared
    in [kinetics.h].  An ordered, fixed-size collection of species
    identified by their index, each with a constant molar mass. *)
Record t : Type := Build {
  molar_masses : list NumericType
}.

(** Modelled from the spec: the accessors of the mixture, the number of
    species and the molar mass [M(s)] of species [s]. *)
Definition n_species (mixture : t) : nat := length (molar_masses mixture).

Definition M (mixture : t) (s : nat) : NumericType :=
  nth s (molar_masses mixture) num_zero.

End WithNumericType.
Arguments t NumericType : clear implicits.
End ChemicalMixture.

Module ReactionSet.
Section WithNumericType.
Context {NumericType : Type} `{Numeric NumericType}.

(** Modelled from the spec: the class [ReactionSet], only declared in
    [kinetics.h].  It holds the mixture, the reactions in their order,
    and the reaction-rate aggregator.  The aggregator receives the state
    [T], [rho], [R_mix], [mass_fractions], [molar_densities],
    [h_RT_minus_s_R] and the vector [net_reaction_rates] by reference;
    it is a function from what that vector held to what it holds on
    return. *)
Record t : Type := Build {
  chemical_mixture : ChemicalMixture.t NumericType;
  reactions : list Reaction.t;
  compute_reaction_rates :
    NumericType → NumericType → NumericType →
    list NumericType → list NumericType → list NumericType →
    list NumericType → list NumericType
}.

(** Modelled from the spec: the accessors of the reaction set, the number
    of reactions and the reaction at an index. *)
Definition n_reactions (reaction_set : t) : nat :=
  length (reactions reaction_set).

Definition reaction (reaction_set : t) (r : nat) : Reaction.t :=
  nth r (reactions reaction_set) Reaction.empty.

End WithNumericType.
Arguments t NumericType : clear implicits.
End ReactionSet.

(** ** The class [Kinetics] *)

Module Kinetics.
Section WithNumericType.
Context {NumericType : Type} `{Numeric NumericType}.

(** The data members: two references, which the code never reseats, and
    the work array. *)
Record t : Type := Build {
  _reaction_set : ReactionSet.t NumericType;
  _chem_mixture : ChemicalMixture.t NumericType;
  _net_reaction_rates : list NumericType
}.

Definition reaction_set (this : t) : ReactionSet.t NumericType :=
  _reaction_set this.

Definition n_species (this : t) : nat :=
  ChemicalMixture.n_species (_chem_mixture this).

Definition n_reactions (this : t) : nat :=
  ReactionSet.n_reactions (_reaction_set this).

(** The constructor [Kinetics( const ReactionSet<NumericType>& )]. *)
Definition new (reaction_set : ReactionSet.t NumericType) : t :=
  {| _reaction_set := reaction_set;
     _chem_mixture := ReactionSet.chemical_mixture reaction_set;
     _net_reaction_rates :=
       replicate (ReactionSet.n_reactions reaction_set) num_zero |}.

(** What a call of [compute_mass_sources] can write to: the instance and
    the vector bound to the reference parameter [mass_sources]. *)
Record frame : Type := Frame {
  this : t;
  mass_sources : list NumericType
}.

Definition set_net_reaction_rates (rates : list NumericType) (k : t) : t :=
  {| _reaction_set := _reaction_set k;
     _chem_mixture := _chem_mixture k;
     _net_reaction_rates := rates |}.

Definition get_this : Exec frame t := λ fr, (Returned (this fr), fr).

(** [mass_sources.size()] *)
Definition mass_sources_size : Exec frame nat :=
  λ fr, (Returned (length (mass_sources fr)), fr).

(** [std::fill( mass_sources.begin(), mass_sources.end(), value )] *)
Definition fill_mass_sources (value : NumericType) : Exec frame unit :=
  λ fr, (Returned (),
         {| this := this fr;
            mass_sources := replicate (length (mass_sources fr)) value |}).

(** [this->_reaction_set.compute_reaction_rates( ..., this->_net_reaction_rates )] *)
Definition call_compute_reaction_rates
    (T rho R_mix : NumericType)
    (mass_fractions molar_densities h_RT_minus_s_R : list NumericType)
    : Exec frame unit :=
  λ fr,
    let k := this fr in
    (Returned (),
     {| this :=
          set_net_reaction_rates
            (ReactionSet.compute_reaction_rates (_reaction_set k)
               T rho R_mix mass_fractions molar_densities h_RT_minus_s_R
               (_net_reaction_rates k)) k;
        mass_sources := mass_sources fr |}).

(** [this->_net_reaction_rates[rxn]], read. *)
Definition net_reaction_rates_at (rxn : nat) : Exec frame NumericType :=
  λ fr, match _net_reaction_rates (this fr) !! rxn with
        | Some rate => (Returned rate, fr)
        | None => (OutOfBounds, fr)
        end.

(** [mass_sources[i] op= value], for [op] one of [-], [+], [*]. *)
Definition mass_sources_assign
    (op : NumericType → NumericType → NumericType)
    (i : nat) (value : NumericType) : Exec frame unit :=
  λ fr,
    if bool_decide (i < length (mass_sources fr)) then
      (Returned (),
       {| this := this fr;
          mass_sources := alter (λ x, op x value) i (mass_sources fr) |})
    else (OutOfBounds, fr).

Definition compute_mass_sources
    (T rho R_mix : NumericType)
    (mass_fractions molar_densities h_RT_minus_s_R : list NumericType)
    : Exec frame unit :=
  this ← get_this;
  antioch_assert_greater T num_zero;;
  antioch_assert_greater rho num_zero;;
  antioch_assert_greater R_mix num_zero;;
  antioch_assert_equal_to (length mass_fractions) (n_species this);;
  antioch_assert_equal_to (length molar_densities) (n_species this);;
  antioch_assert_equal_to (length h_RT_minus_s_R) (n_species this);;
  size ← mass_sources_size;
  antioch_assert_equal_to size (n_species this);;
  antioch_assert_equal_to (length (_net_reaction_rates this))
                          (n_reactions this);;
  fill_mass_sources num_zero;;
  (* compute the requisite reaction rates *)
  call_compute_reaction_rates T rho R_mix
    mass_fractions molar_densities h_RT_minus_s_R;;
  (* compute the actual mass sources in kmol/sec/m^3 *)
  for_upto (n_reactions this) (λ rxn,
    let reaction := ReactionSet.reaction (_reaction_set this) rxn in
    rate ← net_reaction_rates_at rxn;
    (* reactant contributions *)
    for_upto (Reaction.n_reactants reaction) (λ r,
      let r_id := Reaction.reactant_id reaction r in
      let r_stoich := Reaction.reactant_stoichiometric_coefficient reaction r in
      mass_sources_assign num_sub r_id (num_of_uint r_stoich * rate)%num);;
    (* product contributions *)
    for_upto (Reaction.n_products reaction) (λ p,
      let p_id := Reaction.product_id reaction p in
      let p_stoich := Reaction.product_stoichiometric_coefficient reaction p in
      mass_sources_assign num_add p_id (num_of_uint p_stoich * rate)%num));;
  (* finally scale by molar mass *)
  for_upto (n_species this) (λ s,
    mass_sources_assign num_mul s (ChemicalMixture.M (_chem_mixture this) s)).

End WithNumericType.
Arguments t NumericType : clear implicits.
Arguments frame NumericType : clear implicits.
End Kinetics.

(** ** The loops as list functions *)

(** Running the elements of a list through a computation, in order. *)
Fixpoint for_each {St A} (l : list A) (f : A → Exec St unit) : Exec St unit :=
  match l with
  | [] => mret ()
  | x :: l' => f x ;; for_each l' f
  end.

Section PureLoops.
Context {NumericType : Type} `{Numeric NumericType}.

(** [mass_sources[id] op= stoich * rate] for every entry, in order. *)
Definition apply_entries (op : NumericType → NumericType → NumericType)
    (rate : NumericType) (entries : list (nat * nat))
    (sources : list NumericType) : list NumericType :=
  foldl (λ acc e, alter (λ x, op x (num_of_uint e.2 * rate)%num) e.1 acc)
        sources entries.

(** One pass of the loop over reactions: reactants, then products. *)
Definition reaction_contribution (reaction : Reaction.t) (rate : NumericType)
    (sources : list NumericType) : list NumericType :=
  apply_entries num_add rate (Reaction.products reaction)
    (apply_entries num_sub rate (Reaction.reactants reaction) sources).

(** The loop over reactions, each with the rate at its index. *)
Fixpoint accumulate (reactions : list Reaction.t) (rates : list NumericType)
    (sources : list NumericType) : list NumericType :=
  match reactions, rates with
  | reaction :: reactions', rate :: rates' =>
      accumulate reactions' rates' (reaction_contribution reaction rate sources)
  | _, _ => sources
  end.

(** The final loop: every entry times the molar mass of its species. *)
Definition scale_by_molar_mass (mixture : ChemicalMixture.t NumericType)
    (sources : list NumericType) : list NumericType :=
  imap (λ s x, (x * ChemicalMixture.M mixture s)%num) sources.

(** What [compute_mass_sources] leaves in [mass_sources], as a function of
    the rates in the work array. *)
Definition mass_sources_from_rates (k : Kinetics.t NumericType)
    (rates : list NumericType) : list NumericType :=
  scale_by_molar_mass (Kinetics._chem_mixture k)
    (accumulate (ReactionSet.reactions (Kinetics._reaction_set k)) rates
       (replicate (Kinetics.n_species k) num_zero)).

(** Every species index of the entries is below [n]. *)
Definition entries_in_range (n : nat) (entries : list (nat * nat)) : Prop :=
  Forall (λ e, e.1 < n) entries.

Definition reaction_in_range (n : nat) (reaction : Reaction.t) : Prop :=
  entries_in_range n (Reaction.reactants reaction) ∧
  entries_in_range n (Reaction.products reaction).

(** The reactions of the instance refer to species of its mixture only. *)
Definition species_in_range (k : Kinetics.t NumericType) : Prop :=
  Forall (reaction_in_range (Kinetics.n_species k))
         (ReactionSet.reactions (Kinetics._reaction_set k)).

#[export] Instance entries_in_range_dec n entries :
  Decision (entries_in_range n entries).
Proof. unfold entries_in_range. apply _. Defined.

#[export] Instance reaction_in_range_dec n reaction :
  Decision (reaction_in_range n reaction).
Proof. unfold reaction_in_range. apply _. Defined.

#[export] Instance species_in_range_dec k : Decision (species_in_range k).
Proof. unfold species_in_range. apply _. Defined.

(** The preconditions of [compute_mass_sources], as the assertions at its
    top check them. *)
Definition preconditions (T rho R_mix : NumericType)
    (mass_fractions molar_densities h_RT_minus_s_R : list NumericType)
    (fr : Kinetics.frame NumericType) : Prop :=
  let k := Kinetics.this fr in
  num_gt T num_zero = true ∧
  num_gt rho num_zero = true ∧
  num_gt R_mix num_zero = true ∧
  length mass_fractions = Kinetics.n_species k ∧
  length molar_densities = Kinetics.n_species k ∧
  length h_RT_minus_s_R = Kinetics.n_species k ∧
  length (Kinetics.mass_sources fr) = Kinetics.n_species k ∧
  length (Kinetics._net_reaction_rates k) = Kinetics.n_reactions k.

#[export] Instance preconditions_dec T rho R_mix Y c h fr :
  Decision (preconditions T rho R_mix Y c h fr).
Proof. unfold preconditions. apply _. Defined.

(** *** What the properties speak about *)

(** The sum of the stoichiometric coefficients of species [s] in a list of
    entries. *)
Definition stoichiometric_sum (s : nat) (entries : list (nat * nat)) : nat :=
  sum_list_with (λ e, if decide (e.1 = s) then e.2 else 0) entries.

(** Product coefficients of [s] in the reaction minus its reactant
    coefficients. *)
Definition net_stoichiometry (s : nat) (reaction : Reaction.t) : NumericType :=
  (num_of_uint (stoichiometric_sum s (Reaction.products reaction))
   - num_of_uint (stoichiometric_sum s (Reaction.reactants reaction)))%num.

(** The molar mass of [s] times the sum over the reactions of the rate times
    the net stoichiometric coefficient of [s]. *)
Definition mass_source_formula (k : Kinetics.t NumericType)
    (rates : list NumericType) (s : nat) : NumericType :=
  (ChemicalMixture.M (Kinetics._chem_mixture k) s
   * num_sum (zip_with (λ reaction rate, rate * net_stoichiometry s reaction)
                (ReactionSet.reactions (Kinetics._reaction_set k)) rates))%num.

(** The mass on one side of a reaction: the sum over the entries of the
    coefficient times the molar mass of the species. *)
Definition entries_mass (mixture : ChemicalMixture.t NumericType)
    (entries : list (nat * nat)) : NumericType :=
  num_sum (map (λ e, num_of_uint e.2 * ChemicalMixture.M mixture e.1)%num entries).

(** Total reactant mass equals total product mass. *)
Definition conserves_mass (mixture : ChemicalMixture.t NumericType)
    (reaction : Reaction.t) : Prop :=
  entries_mass mixture (Reaction.reactants reaction)
  = entries_mass mixture (Reaction.products reaction).

(** The contract of the aggregator on the vector it is given: it fills it,
    one rate per entry, and leaves its length as it was. *)
Definition aggregator_fills (reaction_set : ReactionSet.t NumericType) : Prop :=
  ∀ T rho R_mix Y c h buffer,
    length (ReactionSet.compute_reaction_rates reaction_set T rho R_mix Y c h buffer)
    = length buffer.

(** The same reaction set with every rate of the aggregator negated. *)
Definition negate_rates (reaction_set : ReactionSet.t NumericType)
    : ReactionSet.t NumericType :=
  {| ReactionSet.chemical_mixture := ReactionSet.chemical_mixture reaction_set;
     ReactionSet.reactions := ReactionSet.reactions reaction_set;
     ReactionSet.compute_reaction_rates := λ T rho R_mix Y c h buffer,
       map num_opp
         (ReactionSet.compute_reaction_rates reaction_set T rho R_mix Y c h buffer) |}.

(** The instance bound to another reaction set, work array kept. *)
Definition rebind (reaction_set : ReactionSet.t NumericType)
    (k : Kinetics.t NumericType) : Kinetics.t NumericType :=
  {| Kinetics._reaction_set := reaction_set;
     Kinetics._chem_mixture := Kinetics._chem_mixture k;
     Kinetics._net_reaction_rates := Kinetics._net_reaction_rates k |}.

(** An instance is bound to a reaction set: its references are the set and
    the mixture of the set, and its work array has one entry per reaction. *)
Definition bound_to (reaction_set : ReactionSet.t NumericType)
    (k : Kinetics.t NumericType) : Prop :=
  Kinetics.reaction_set k = reaction_set ∧
  Kinetics._chem_mixture k = ReactionSet.chemical_mixture reaction_set ∧
  length (Kinetics._net_reaction_rates k) = ReactionSet.n_reactions reaction_set.

(** The states of an instance: the one the constructor leaves, and the ones
    any call of [compute_mass_sources] leaves, however it ends. *)
Inductive reachable (reaction_set : ReactionSet.t NumericType)
    : Kinetics.t NumericType → Prop :=
  | reachable_new : reachable reaction_set (Kinetics.new reaction_set)
  | reachable_call k T rho R_mix Y c h sources :
      reachable reaction_set k →
      reachable reaction_set
        (Kinetics.this
           (Kinetics.compute_mass_sources T rho R_mix Y c h
              (Kinetics.Frame k sources)).2).

End PureLoops.

(** ** Instances and scenarios *)

(** Integer arithmetic is exact. *)
#[export] Instance Z_exact : ExactArithmetic Z.
Proof.
  split; [exact Zth|reflexivity|].
  intros n. cbn. lia.
Qed.

(** The reaction "A -> B", with A species 0 and B species 1. *)
Definition reaction_A_to_B : Reaction.t :=
  Reaction.Build [(0, 1)] [(1, 1)].

(** The reaction "2A -> A + B". *)
Definition reaction_2A_to_A_B : Reaction.t :=
  Reaction.Build [(0, 2)] [(0, 1); (1, 1)].

(** A system of one reaction over species with the given molar masses. *)
Definition one_reaction_system {NumericType : Type}
    (molar_masses : list NumericType) (reaction : Reaction.t)
    (aggregator : NumericType → NumericType → NumericType →
                  list NumericType → list NumericType → list NumericType →
                  list NumericType → list NumericType)
    : ReactionSet.t NumericType :=
  {| ReactionSet.chemical_mixture := ChemicalMixture.Build molar_masses;
     ReactionSet.reactions := [reaction];
     ReactionSet.compute_reaction_rates := aggregator |}.

(** An aggregator that writes the same rate for every reaction. *)
Definition constant_rates {NumericType : Type} (rate : NumericType)
    (T rho R_mix : NumericType) (Y c h buffer : list NumericType)
    : list NumericType :=
  replicate (length buffer) rate.

(** An instance over the integers: "A -> B" with molar masses 2 and 4 and
    rate 3, a state that meets the preconditions, and an output vector that
    holds old values. *)
Definition Z_system : ReactionSet.t Z :=
  one_reaction_system [2; 4]%Z reaction_A_to_B (constant_rates 3%Z).

Definition Z_frame : Kinetics.frame Z :=
  Kinetics.Frame (Kinetics.new Z_system) [7; 7]%Z.

(** A call on that instance. *)
Definition Z_call : Exec (Kinetics.frame Z) unit :=
  Kinetics.compute_mass_sources 300%Z 1%Z 287%Z [1; 0]%Z [1; 1]%Z [0; 0]%Z.

(** The same call at temperature zero. *)
Definition Z_cold_call : Exec (Kinetics.frame Z) unit :=
  Kinetics.compute_mass_sources 0%Z 1%Z 287%Z [1; 0]%Z [1; 1]%Z [0; 0]%Z.

(** The same call with a vector of mass fractions that is too short. *)
Definition Z_short_call : Exec (Kinetics.frame Z) unit :=
  Kinetics.compute_mass_sources 300%Z 1%Z 287%Z [1]%Z [1; 1]%Z [0; 0]%Z.

(** The reaction "2A -> B", which conserves mass when B weighs twice A. *)
Definition reaction_2A_to_B : Reaction.t :=
  Reaction.Build [(0, 2)] [(1, 1)].

Definition Z_conserving_system : ReactionSet.t Z :=
  one_reaction_system [2; 4]%Z reaction_2A_to_B (constant_rates 3%Z).

Definition Z_conserving_frame : Kinetics.frame Z :=
  Kinetics.Frame (Kinetics.new Z_conserving_system) [7; 7]%Z.

(** The two scenarios over [double], with an aggregator that writes the
    rate of the scenario, a work array and an output vector that hold old
    values, and a call at a state that meets the preconditions. *)
Definition double_A_to_B_frame : Kinetics.frame float :=
  Kinetics.Frame
    (Kinetics.set_net_reaction_rates [0.5]%float
       (Kinetics.new
          (one_reaction_system [2.0; 4.0]%float reaction_A_to_B
             (constant_rates 3.0%float))))
    [7.0; 7.0]%float.

Definition double_self_paired_frame : Kinetics.frame float :=
  Kinetics.Frame
    (Kinetics.set_net_reaction_rates [0.5]%float
       (Kinetics.new
          (one_reaction_system [1.0; 1.0]%float reaction_2A_to_A_B
             (constant_rates 1.0%float))))
    [7.0; 7.0]%float.

Definition double_call : Exec (Kinetics.frame float) unit :=
  Kinetics.compute_mass_sources 300.0%float 1.25%float 287.0%float
    [0.5; 0.5]%float [0.25; 0.5]%float [0.0; 0.0]%float.

(** ** Variations of an instance *)

Section Variations.
Context {NumericType : Type} `{Numeric NumericType}.

(** Species [s] takes part in no reaction of the instance: no reactant entry
    and no product entry names it. *)
Definition species_absent (s : nat) (k : Kinetics.t NumericType) : Prop :=
  Forall (λ reaction,
            Forall (λ e, e.1 ≠ s) (Reaction.reactants reaction) ∧
            Forall (λ e, e.1 ≠ s) (Reaction.products reaction))
         (ReactionSet.reactions (Kinetics._reaction_set k)).

(** The indices a call uses stay within the vectors it reads and writes:
    the work array holds a rate for every reaction, and every species index
    of a reaction is one of the mixture. *)
Definition indices_valid (k : Kinetics.t NumericType)
    (rates : list NumericType) : Prop :=
  Kinetics.n_reactions k ≤ length rates ∧ species_in_range k.

#[export] Instance indices_valid_dec k rates : Decision (indices_valid k rates).
Proof. unfold indices_valid. apply _. Defined.

(** The same reaction set with another aggregator. *)
Definition with_aggregator
    (aggregator : NumericType → NumericType → NumericType →
                  list NumericType → list NumericType → list NumericType →
                  list NumericType → list NumericType)
    (reaction_set : ReactionSet.t NumericType) : ReactionSet.t NumericType :=
  {| ReactionSet.chemical_mixture := ReactionSet.chemical_mixture reaction_set;
     ReactionSet.reactions := ReactionSet.reactions reaction_set;
     ReactionSet.compute_reaction_rates := aggregator |}.

(** The same reaction set with every rate of the aggregator times [factor]. *)
Definition scale_rates (factor : NumericType)
    (reaction_set : ReactionSet.t NumericType) : ReactionSet.t NumericType :=
  with_aggregator
    (λ T rho R_mix Y c h buffer,
       map (num_mul factor)
         (ReactionSet.compute_reaction_rates reaction_set T rho R_mix Y c h buffer))
    reaction_set.

(** The same reaction set with the rates of two aggregators added, entry by
    entry. *)
Definition add_rates
    (aggregator1 aggregator2 :
       NumericType → NumericType → NumericType →
       list NumericType → list NumericType → list NumericType →
       list NumericType → list NumericType)
    (reaction_set : ReactionSet.t NumericType) : ReactionSet.t NumericType :=
  with_aggregator
    (λ T rho R_mix Y c h buffer,
       zip_with num_add (aggregator1 T rho R_mix Y c h buffer)
                        (aggregator2 T rho R_mix Y c h buffer))
    reaction_set.

(** The same reaction set with the rates past the last reaction cut off. *)
Definition truncate_rates (reaction_set : ReactionSet.t NumericType)
    : ReactionSet.t NumericType :=
  with_aggregator
    (λ T rho R_mix Y c h buffer,
       take (ReactionSet.n_reactions reaction_set)
         (ReactionSet.compute_reaction_rates reaction_set T rho R_mix Y c h buffer))
    reaction_set.

(** The same mixture and aggregator with other reactions. *)
Definition with_reactions (reactions : list Reaction.t)
    (reaction_set : ReactionSet.t NumericType) : ReactionSet.t NumericType :=
  {| ReactionSet.chemical_mixture := ReactionSet.chemical_mixture reaction_set;
     ReactionSet.reactions := reactions;
     ReactionSet.compute_reaction_rates :=
       ReactionSet.compute_reaction_rates reaction_set |}.

(** Two reactions with the same net stoichiometric coefficient of every
    species. *)
Definition same_net_stoichiometry (reaction reaction' : Reaction.t) : Prop :=
  ∀ s, net_stoichiometry s reaction = net_stoichiometry s reaction'.

End Variations.

(** "A -> B" written with an entry of coefficient zero and with the entry of
    B split in two. *)
Definition reaction_A_to_B_padded : Reaction.t :=
  Reaction.Build [(0, 1); (1, 0)] [(1, 0); (1, 1)].

(** A system of three species in which the last takes part in no reaction,
    and a call on it. *)
Definition Z_spectator_frame : Kinetics.frame Z :=
  Kinetics.Frame
    (Kinetics.new
       (one_reaction_system [2; 4; 5]%Z reaction_A_to_B (constant_rates 3%Z)))
    [7; 7; 7]%Z.

Definition Z_spectator_call : Exec (Kinetics.frame Z) unit :=
  Kinetics.compute_mass_sources 300%Z 1%Z 287%Z
    [1; 0; 0]%Z [1; 1; 1]%Z [0; 0; 0]%Z.

(** A reaction that names species 2, and a system of two species with it. *)
Definition reaction_A_to_C : Reaction.t :=
  Reaction.Build [(0, 1)] [(2, 1)].

Definition Z_stray_frame : Kinetics.frame Z :=
  Kinetics.Frame
    (Kinetics.new
       (one_reaction_system [2; 4]%Z reaction_A_to_C (constant_rates 3%Z)))
    [7; 7]%Z.

(** An aggregator that writes two rates whatever the work array held, and
    the system "A -> B" with it: one rate more than reactions. *)
Definition two_rates (T rho R_mix : Z) (Y c h buffer : list Z) : list Z :=
  [3; 9]%Z.

Definition Z_long_rates_frame : Kinetics.frame Z :=
  Kinetics.Frame
    (Kinetics.new (one_reaction_system [2; 4]%Z reaction_A_to_B two_rates))
    [7; 7]%Z.

(** ** Negation in [double] arithmetic *)

(** [x'] is the negation of [x], or both are zeros, on the specification of
    binary64 values. *)
Definition SFnegated (x x' : spec_float) : Prop :=
  x' = SFopp x ∨ ((∃ s, x = S754_zero s) ∧ (∃ s', x' = S754_zero s')).

(** [x'] is the negation of [x] as a number: the negated value, or a zero
    for a zero, whose sign need not be the opposite one. *)
Definition negated_double (x x' : float) : Prop :=
  x' = (- x)%float ∨
  ((x = 0%float ∨ x = (-0)%float) ∧ (x' = 0%float ∨ x' = (-0)%float)).

(** The reaction "3A -> A" over one species of molar mass 1.0, with the
    rate the double next to 0.1. *)
Definition reaction_3A_to_A : Reaction.t :=
  Reaction.Build [(0, 3)] [(0, 1)].

Definition double_rounding_frame : Kinetics.frame float :=
  Kinetics.Frame
    (Kinetics.new
       (one_reaction_system [1.0]%float reaction_3A_to_A
          (constant_rates 0x1.999999999999ap-4%float)))
    [7.0]%float.

Definition double_one_species_call : Exec (Kinetics.frame float) unit :=
  Kinetics.compute_mass_sources 300.0%float 1.25%float 287.0%float
    [1.0]%float [0.25]%float [0.0]%float.

(** The reaction "2A -> B" with molar masses 1.0 and 2.0, which conserves
    mass, at the rate 2^1023. *)
Definition double_overflow_frame : Kinetics.frame float :=
  Kinetics.Frame
    (Kinetics.new
       (one_reaction_system [1.0; 2.0]%float reaction_2A_to_B
          (constant_rates 0x1p1023%float)))
    [7.0; 7.0]%float.

(** "A -> B" at rate 3.0 in a mixture with a third species that takes part
    in no reaction, and a call on it. *)
Definition double_spectator_frame : Kinetics.frame float :=
  Kinetics.Frame
    (Kinetics.new
       (one_reaction_system [2.0; 4.0; 5.0]%float reaction_A_to_B
          (constant_rates 3.0%float)))
    [7.0; 7.0; 7.0]%float.

Definition double_three_species_call : Exec (Kinetics.frame float) unit :=
  Kinetics.compute_mass_sources 300.0%float 1.25%float 287.0%float
    [0.5; 0.5; 0.0]%float [0.25; 0.5; 0.0]%float [0.0; 0.0; 0.0]%float.

(** ** Stepping through a computation *)

Section Stepping.
Context {NumericType : Type} `{Numeric NumericType}.

Lemma bind_returned {St A B} (c : Exec St A) (f : A → Exec St B) s a s' :
  c s = (Returned a, s') → (c ≫= f) s = f a s'.
Proof. intros Hc. unfold mbind, exec_mbind, exec_bind. by rewrite Hc. Qed.

Lemma bind_assertion_failed {St A B} (c : Exec St A) (f : A → Exec St B) s s' :
  c s = (AssertionFailed, s') → (c ≫= f) s = (AssertionFailed, s').
Proof. intros Hc. unfold mbind, exec_mbind, exec_bind. by rewrite Hc. Qed.

Lemma bind_out_of_bounds {St A B} (c : Exec St A) (f : A → Exec St B) s s' :
  c s = (OutOfBounds, s') → (c ≫= f) s = (OutOfBounds, s').
Proof. intros Hc. unfold mbind, exec_mbind, exec_bind. by rewrite Hc. Qed.

Lemma assert_true {St} (s : St) : antioch_assert true s = (Returned (), s).
Proof. done. Qed.

Lemma assert_false {St} (s : St) : antioch_assert false s = (AssertionFailed, s).
Proof. done. Qed.

(** Sequencing keeps what both parts keep. *)
Lemma bind_preserves {St A B} (P : St → Prop) (c : Exec St A) (f : A → Exec St B) :
  (∀ s, P s → P (c s).2) →
  (∀ a s, P s → P (f a s).2) →
  ∀ s, P s → P ((c ≫= f) s).2.
Proof.
  intros Hc Hf s Hs. unfold mbind, exec_mbind, exec_bind.
  specialize (Hc s Hs). destruct (c s) as [[a| |] s']; cbn in *; auto.
Qed.

Lemma for_range_preserves {St} (P : St → Prop) (body : nat → Exec St unit) :
  (∀ i s, P s → P (body i s).2) →
  ∀ count first s, P s → P (for_range first count body s).2.
Proof.
  intros Hbody. induction count as [|count IH]; intros first s Hs; [done|].
  cbn [for_range]. apply bind_preserves; auto.
Qed.

(** Sequencing fails no assertion when neither part does. *)
Lemma bind_never_asserts {St A B} (c : Exec St A) (f : A → Exec St B) :
  (∀ s, (c s).1 ≠ AssertionFailed) →
  (∀ a s, (f a s).1 ≠ AssertionFailed) →
  ∀ s, ((c ≫= f) s).1 ≠ AssertionFailed.
Proof.
  intros Hc Hf s. unfold mbind, exec_mbind, exec_bind.
  specialize (Hc s). destruct (c s) as [[a| |] s']; cbn in *; auto.
Qed.

Lemma for_range_never_asserts {St} (body : nat → Exec St unit) :
  (∀ i s, (body i s).1 ≠ AssertionFailed) →
  ∀ count first s, (for_range first count body s).1 ≠ AssertionFailed.
Proof.
  intros Hbody. induction count as [|count IH]; intros first s; [done|].
  cbn [for_range]. apply bind_never_asserts; auto.
Qed.

End Stepping.

(** Past the assertions: every one of them holds under the preconditions. *)
Ltac pass_assertions :=
  unfold Kinetics.compute_mass_sources;
  erewrite bind_returned by reflexivity;
  repeat (erewrite bind_returned;
          [|first
            [ reflexivity
            | unfold antioch_assert_greater;
              match goal with Hgt : num_gt _ _ = true |- _ => rewrite Hgt end;
              apply assert_true
            | unfold antioch_assert_equal_to;
              rewrite bool_decide_eq_true_2 by first [assumption|cbn; congruence];
              apply assert_true ]]).

(** ** The loops of [compute_mass_sources] *)

Section LoopLemmas.
Context {NumericType : Type} `{Numeric NumericType}.

(** A counting loop that reads the elements of a list by index runs the
    list in order. *)
Lemma for_range_nth {St A} (d : A) (f : A → Exec St unit) (l pre : list A) s :
  for_range (length pre) (length l) (λ i, f (nth i (pre ++ l) d)) s
  = for_each l f s.
Proof.
  revert pre s. induction l as [|x l IH]; intros pre s; [done|].
  cbn [length for_range for_each].
  unfold mbind, exec_mbind, exec_bind.
  rewrite nth_middle.
  destruct (f x s) as [[[]| |] s']; try done.
  specialize (IH (pre ++ [x]) s').
  rewrite <- app_assoc, length_app, Nat.add_1_r in IH. exact IH.
Qed.

Lemma for_upto_nth {St A} (d : A) (f : A → Exec St unit) (l : list A) s :
  for_upto (length l) (λ i, f (nth i l d)) s = for_each l f s.
Proof. exact (for_range_nth d f l [] s). Qed.

(** The loops over the entries of a reaction. *)
Lemma for_each_entries op rate entries fr :
  entries_in_range (length (Kinetics.mass_sources fr)) entries →
  for_each entries
    (λ e, Kinetics.mass_sources_assign op e.1 (num_of_uint e.2 * rate)%num) fr
  = (Returned (),
     Kinetics.Frame (Kinetics.this fr)
       (apply_entries op rate entries (Kinetics.mass_sources fr))).
Proof.
  revert fr. induction entries as [|[id stoich] entries IH]; intros fr Hin.
  - by destruct fr.
  - apply Forall_cons in Hin as [Hid Hin]. cbn [for_each].
    erewrite bind_returned; last first.
    { unfold Kinetics.mass_sources_assign. by rewrite bool_decide_eq_true_2. }
    rewrite IH; [done|]. cbn. by rewrite length_alter.
Qed.

Lemma length_apply_entries op rate entries sources :
  length (apply_entries op rate entries sources) = length sources.
Proof.
  revert sources. induction entries as [|e entries IH]; intros sources; [done|].
  cbn. unfold apply_entries in IH. by rewrite IH, length_alter.
Qed.

Lemma length_reaction_contribution reaction rate sources :
  length (reaction_contribution reaction rate sources) = length sources.
Proof. unfold reaction_contribution. by rewrite !length_apply_entries. Qed.

Lemma length_accumulate reactions rates sources :
  length (accumulate reactions rates sources) = length sources.
Proof.
  revert rates sources.
  induction reactions as [|reaction reactions IH]; intros [|rate rates] sources;
    try done.
  cbn. by rewrite IH, length_reaction_contribution.
Qed.

(** The loop over the reactions, read by index together with the work
    array. *)
Lemma for_range_reactions (reactions : list Reaction.t) :
  ∀ pre_reactions pre_rates rates fr,
    length pre_reactions = length pre_rates →
    length reactions ≤ length rates →
    Kinetics._net_reaction_rates (Kinetics.this fr) = pre_rates ++ rates →
    Forall (reaction_in_range (length (Kinetics.mass_sources fr))) reactions →
    for_range (length pre_reactions) (length reactions) (λ rxn,
      let reaction := nth rxn (pre_reactions ++ reactions) Reaction.empty in
      rate ← Kinetics.net_reaction_rates_at rxn;
      for_upto (Reaction.n_reactants reaction) (λ r,
        let r_id := Reaction.reactant_id reaction r in
        let r_stoich := Reaction.reactant_stoichiometric_coefficient reaction r in
        Kinetics.mass_sources_assign num_sub r_id (num_of_uint r_stoich * rate)%num);;
      for_upto (Reaction.n_products reaction) (λ p,
        let p_id := Reaction.product_id reaction p in
        let p_stoich := Reaction.product_stoichiometric_coefficient reaction p in
        Kinetics.mass_sources_assign num_add p_id (num_of_uint p_stoich * rate)%num)) fr
    = (Returned (),
       Kinetics.Frame (Kinetics.this fr)
         (accumulate reactions rates (Kinetics.mass_sources fr))).
Proof.
  induction reactions as [|reaction reactions IH];
    intros pre_reactions pre_rates rates fr Hpre Hlen Hrates Hin.
  { by destruct fr. }
  destruct rates as [|rate rates]; [cbn in Hlen; lia|].
  apply Forall_cons in Hin as [[Hreactants Hproducts] Hin].
  cbn [length for_range accumulate].
  erewrite bind_returned; last first.
  { cbn zeta. rewrite nth_middle.
    erewrite bind_returned; last first.
    { unfold Kinetics.net_reaction_rates_at.
      rewrite Hrates, Hpre, list_lookup_middle by done. done. }
    erewrite bind_returned; last first.
    { unfold Reaction.n_reactants, Reaction.reactant_id,
        Reaction.reactant_stoichiometric_coefficient.
      rewrite (for_upto_nth (0, 0)
        (λ e, Kinetics.mass_sources_assign num_sub e.1 (num_of_uint e.2 * rate)%num)).
      by apply for_each_entries. }
    unfold Reaction.n_products, Reaction.product_id,
      Reaction.product_stoichiometric_coefficient.
    rewrite (for_upto_nth (0, 0)
      (λ e, Kinetics.mass_sources_assign num_add e.1 (num_of_uint e.2 * rate)%num)).
    apply for_each_entries. cbn. by rewrite length_apply_entries. }
  specialize (IH (pre_reactions ++ [reaction]) (pre_rates ++ [rate]) rates).
  rewrite <- !app_assoc, length_app, Nat.add_1_r in IH. cbn [app] in IH.
  rewrite IH; [done|..].
  - rewrite !length_app. cbn. lia.
  - cbn in Hlen. lia.
  - done.
  - cbn. by rewrite !length_apply_entries.
Qed.

(** The loop that scales by the molar masses. *)
Lemma for_range_scale (mixture : ChemicalMixture.t NumericType) sources :
  ∀ pre fr,
    Kinetics.mass_sources fr = pre ++ sources →
    for_range (length pre) (length sources) (λ s,
      Kinetics.mass_sources_assign num_mul s (ChemicalMixture.M mixture s)) fr
    = (Returned (),
       Kinetics.Frame (Kinetics.this fr)
         (pre ++ imap (λ i x, (x * ChemicalMixture.M mixture (length pre + i))%num)
                   sources)).
Proof.
  induction sources as [|x sources IH]; intros pre fr Hfr.
  { destruct fr; cbn in *. by subst. }
  cbn [length for_range].
  erewrite bind_returned; last first.
  { unfold Kinetics.mass_sources_assign.
    rewrite bool_decide_eq_true_2; [done|].
    rewrite Hfr, length_app. cbn. lia. }
  rewrite Hfr.
  replace (alter _ (length pre) (pre ++ x :: sources))
    with ((pre ++ [(x * ChemicalMixture.M mixture (length pre))%num]) ++ sources).
  2:{ rewrite <- (Nat.add_0_r (length pre)) at 2.
      rewrite alter_app_r, <- app_assoc. done. }
  specialize (IH (pre ++ [(x * ChemicalMixture.M mixture (length pre))%num])).
  rewrite length_app, Nat.add_1_r in IH.
  rewrite IH by done. cbn [Kinetics.this]. f_equal. f_equal.
  rewrite <- app_assoc. cbn [app imap]. rewrite Nat.add_0_r.
  do 2 f_equal. apply imap_ext. intros i y _. cbn. do 2 f_equal. lia.
Qed.

(** A valid call on an instance whose reactions stay within its species
    returns, and leaves the rates in the work array and the scaled
    accumulation in [mass_sources]. *)
Lemma compute_mass_sources_returns T rho R_mix Y c h (fr : Kinetics.frame NumericType) :
  let k := Kinetics.this fr in
  let rates :=
    ReactionSet.compute_reaction_rates (Kinetics._reaction_set k)
      T rho R_mix Y c h (Kinetics._net_reaction_rates k) in
  preconditions T rho R_mix Y c h fr →
  species_in_range k →
  Kinetics.n_reactions k ≤ length rates →
  Kinetics.compute_mass_sources T rho R_mix Y c h fr
  = (Returned (),
     Kinetics.Frame (Kinetics.set_net_reaction_rates rates k)
       (mass_sources_from_rates k rates)).
Proof.
  intros k rates (HT & Hrho & HR & HY & Hc & Hh & Hsources & Hwork) Hin Hrates.
  pass_assertions. cbn [Kinetics.this Kinetics.mass_sources].
  rewrite Hsources. fold k. fold rates.
  erewrite bind_returned; last first.
  { unfold for_upto, Kinetics.n_reactions, ReactionSet.n_reactions,
      ReactionSet.reaction.
    apply (for_range_reactions _ [] [] rates); cbn; try done.
    by rewrite length_replicate. }
  unfold for_upto. cbn [Kinetics.this Kinetics.mass_sources].
  pose proof (for_range_scale (Kinetics._chem_mixture k)
    (accumulate (ReactionSet.reactions (Kinetics._reaction_set k)) rates
       (replicate (Kinetics.n_species k) num_zero)) []) as Hscale.
  rewrite length_accumulate, length_replicate in Hscale.
  cbn [length app] in Hscale. by rewrite Hscale.
Qed.

Lemma length_mass_sources_from_rates (k : Kinetics.t NumericType) rates :
  length (mass_sources_from_rates k rates) = Kinetics.n_species k.
Proof.
  unfold mass_sources_from_rates, scale_by_molar_mass.
  by rewrite length_imap, length_accumulate, length_replicate.
Qed.

End LoopLemmas.

(** ** Exact arithmetic *)

Section Exact.
Context {NumericType : Type} `{ExactArithmetic NumericType}.

#[local] Set Default Proof Using "Type*".

Add Ring numeric_ring : exact_ring.

Lemma num_sum_cons (x : NumericType) l : num_sum (x :: l) = (x + num_sum l)%num.
Proof. done. Qed.

Lemma of_uint_add (m n : nat) :
  num_of_uint (m + n) = (num_of_uint m + num_of_uint n)%num.
Proof.
  induction m as [|m IH]; cbn [Nat.add].
  - rewrite of_uint_0. ring.
  - rewrite !of_uint_S, IH. ring.
Qed.

(** What the reactant loop and the product loop do to one entry of
    [mass_sources]. *)
Lemma lookup_subtract_reactants rate entries sources s :
  apply_entries num_sub rate entries sources !! s
  = (λ x, x - num_of_uint (stoichiometric_sum s entries) * rate)%num
      <$> sources !! s.
Proof.
  revert sources. induction entries as [|[id stoich] entries IH]; intros sources.
  - cbn. destruct (sources !! s) as [x|]; cbn; [|done].
    f_equal. rewrite of_uint_0. ring.
  - change (apply_entries num_sub rate ((id, stoich) :: entries) sources)
      with (apply_entries num_sub rate entries
              (alter (λ x, x - num_of_uint stoich * rate)%num id sources)).
    rewrite IH, list_lookup_alter. cbn [stoichiometric_sum sum_list_with fst snd].
    fold (stoichiometric_sum s entries).
    destruct (decide (id = s)) as [->|Hne]; destruct (sources !! s) as [x|];
      cbn; try done.
    f_equal. rewrite of_uint_add. ring.
Qed.

Lemma lookup_add_products rate entries sources s :
  apply_entries num_add rate entries sources !! s
  = (λ x, x + num_of_uint (stoichiometric_sum s entries) * rate)%num
      <$> sources !! s.
Proof.
  revert sources. induction entries as [|[id stoich] entries IH]; intros sources.
  - cbn. destruct (sources !! s) as [x|]; cbn; [|done].
    f_equal. rewrite of_uint_0. ring.
  - change (apply_entries num_add rate ((id, stoich) :: entries) sources)
      with (apply_entries num_add rate entries
              (alter (λ x, x + num_of_uint stoich * rate)%num id sources)).
    rewrite IH, list_lookup_alter. cbn [stoichiometric_sum sum_list_with fst snd].
    fold (stoichiometric_sum s entries).
    destruct (decide (id = s)) as [->|Hne]; destruct (sources !! s) as [x|];
      cbn; try done.
    f_equal. rewrite of_uint_add. ring.
Qed.

Lemma lookup_reaction_contribution reaction rate sources s :
  reaction_contribution reaction rate sources !! s
  = (λ x, x + rate * net_stoichiometry s reaction)%num <$> sources !! s.
Proof.
  unfold reaction_contribution.
  rewrite lookup_add_products, lookup_subtract_reactants.
  destruct (sources !! s) as [x|]; cbn; [|done].
  f_equal. unfold net_stoichiometry. ring.
Qed.

Lemma lookup_accumulate reactions rates sources s :
  accumulate reactions rates sources !! s
  = (λ x, x + num_sum (zip_with (λ reaction rate,
                                   rate * net_stoichiometry s reaction)
                         reactions rates))%num
      <$> sources !! s.
Proof.
  revert rates sources.
  induction reactions as [|reaction reactions IH]; intros [|rate rates] sources;
    cbn [accumulate zip_with num_sum foldr];
    try (destruct (sources !! s) as [x|]; cbn; [f_equal; ring|done]).
  rewrite IH, lookup_reaction_contribution.
  destruct (sources !! s) as [x|]; cbn; [|done].
  f_equal. fold (num_sum (zip_with (λ reaction rate,
    (rate * net_stoichiometry s reaction)%num) reactions rates)). ring.
Qed.

(** Entry [s] of the result is the formula. *)
Lemma lookup_mass_sources_from_rates (k : Kinetics.t NumericType) rates s :
  s < Kinetics.n_species k →
  mass_sources_from_rates k rates !! s = Some (mass_source_formula k rates s).
Proof.
  intros Hs. unfold mass_sources_from_rates, scale_by_molar_mass.
  rewrite list_lookup_imap, lookup_accumulate, lookup_replicate_2 by done.
  cbn. f_equal. unfold mass_source_formula. ring.
Qed.

(** *** The total over the species *)

Lemma sum_scaled_alter_sub (g : nat → NumericType) sources id v :
  id < length sources →
  num_sum (imap (λ i x, x * g i)%num (alter (λ x, x - v)%num id sources))
  = (num_sum (imap (λ i x, x * g i)%num sources) - v * g id)%num.
Proof.
  revert g id. induction sources as [|y sources IH]; intros g id Hid.
  { cbn in Hid. lia. }
  destruct id as [|id]; cbn [alter list_alter imap num_sum foldr].
  - ring.
  - fold (num_sum (imap ((λ i x, x * g i)%num ∘ S)
                     (alter (λ x, x - v)%num id sources))).
    fold (num_sum (imap ((λ i x, x * g i)%num ∘ S) sources)).
    pose proof (IH (g ∘ S) id) as IH'. cbn in IH', Hid.
    unfold compose. rewrite IH' by lia. ring.
Qed.

Lemma sum_scaled_alter_add (g : nat → NumericType) sources id v :
  id < length sources →
  num_sum (imap (λ i x, x * g i)%num (alter (λ x, x + v)%num id sources))
  = (num_sum (imap (λ i x, x * g i)%num sources) + v * g id)%num.
Proof.
  revert g id. induction sources as [|y sources IH]; intros g id Hid.
  { cbn in Hid. lia. }
  destruct id as [|id]; cbn [alter list_alter imap num_sum foldr].
  - ring.
  - fold (num_sum (imap ((λ i x, x * g i)%num ∘ S)
                     (alter (λ x, x + v)%num id sources))).
    fold (num_sum (imap ((λ i x, x * g i)%num ∘ S) sources)).
    pose proof (IH (g ∘ S) id) as IH'. cbn in IH', Hid.
    unfold compose. rewrite IH' by lia. ring.
Qed.

Lemma sum_scaled_subtract_reactants mixture rate entries sources :
  entries_in_range (length sources) entries →
  num_sum (scale_by_molar_mass mixture (apply_entries num_sub rate entries sources))
  = (num_sum (scale_by_molar_mass mixture sources)
     - rate * entries_mass mixture entries)%num.
Proof.
  revert sources. induction entries as [|[id stoich] entries IH];
    intros sources Hin.
  - unfold entries_mass. cbn [apply_entries foldl map].
    change (num_sum []) with (@num_zero NumericType _). ring.
  - apply Forall_cons in Hin as [Hid Hin]. cbn in Hid.
    change (apply_entries num_sub rate ((id, stoich) :: entries) sources)
      with (apply_entries num_sub rate entries
              (alter (λ x, x - num_of_uint stoich * rate)%num id sources)).
    rewrite IH by (by rewrite length_alter).
    unfold scale_by_molar_mass. rewrite sum_scaled_alter_sub by done.
    unfold entries_mass. cbn [map fst snd]. rewrite num_sum_cons. ring.
Qed.

Lemma sum_scaled_add_products mixture rate entries sources :
  entries_in_range (length sources) entries →
  num_sum (scale_by_molar_mass mixture (apply_entries num_add rate entries sources))
  = (num_sum (scale_by_molar_mass mixture sources)
     + rate * entries_mass mixture entries)%num.
Proof.
  revert sources. induction entries as [|[id stoich] entries IH];
    intros sources Hin.
  - unfold entries_mass. cbn [apply_entries foldl map].
    change (num_sum []) with (@num_zero NumericType _). ring.
  - apply Forall_cons in Hin as [Hid Hin]. cbn in Hid.
    change (apply_entries num_add rate ((id, stoich) :: entries) sources)
      with (apply_entries num_add rate entries
              (alter (λ x, x + num_of_uint stoich * rate)%num id sources)).
    rewrite IH by (by rewrite length_alter).
    unfold scale_by_molar_mass. rewrite sum_scaled_alter_add by done.
    unfold entries_mass. cbn [map fst snd]. rewrite num_sum_cons. ring.
Qed.

(** A reaction that conserves mass leaves the total unchanged. *)
Lemma sum_scaled_reaction_contribution mixture reaction rate sources :
  reaction_in_range (length sources) reaction →
  conserves_mass mixture reaction →
  num_sum (scale_by_molar_mass mixture (reaction_contribution reaction rate sources))
  = num_sum (scale_by_molar_mass mixture sources).
Proof.
  intros [Hreactants Hproducts] Hmass. unfold reaction_contribution.
  rewrite sum_scaled_add_products by (by rewrite length_apply_entries).
  rewrite sum_scaled_subtract_reactants by done.
  rewrite Hmass. ring.
Qed.

Lemma sum_scaled_accumulate mixture reactions rates sources :
  Forall (reaction_in_range (length sources)) reactions →
  Forall (conserves_mass mixture) reactions →
  num_sum (scale_by_molar_mass mixture (accumulate reactions rates sources))
  = num_sum (scale_by_molar_mass mixture sources).
Proof.
  revert rates sources.
  induction reactions as [|reaction reactions IH]; intros [|rate rates] sources
    Hin Hmass; try done.
  apply Forall_cons in Hin as [Hin1 Hin]. apply Forall_cons in Hmass as [Hm1 Hmass].
  cbn [accumulate]. rewrite IH; [|by rewrite length_reaction_contribution|done].
  by apply sum_scaled_reaction_contribution.
Qed.

Lemma sum_scaled_zeros (g : nat → NumericType) n :
  num_sum (imap (λ i x, x * g i)%num (replicate n num_zero)) = num_zero.
Proof.
  revert g. induction n as [|n IH]; intros g; [done|].
  cbn [replicate imap num_sum foldr].
  pose proof (IH (g ∘ S)) as IH'. unfold num_sum, compose in IH' |- *.
  rewrite IH'. ring.
Qed.

Lemma sum_mass_sources_from_rates (k : Kinetics.t NumericType) rates :
  species_in_range k →
  Forall (conserves_mass (Kinetics._chem_mixture k))
         (ReactionSet.reactions (Kinetics._reaction_set k)) →
  num_sum (mass_sources_from_rates k rates) = num_zero.
Proof.
  intros Hin Hmass. unfold mass_sources_from_rates.
  rewrite sum_scaled_accumulate; [|by rewrite length_replicate|done].
  apply sum_scaled_zeros.
Qed.

(** *** Negated rates *)

Lemma num_sum_negated_rates s reactions rates :
  num_sum (zip_with (λ reaction rate, rate * net_stoichiometry s reaction)%num
             reactions (map num_opp rates))
  = (- num_sum (zip_with (λ reaction rate, rate * net_stoichiometry s reaction)%num
                  reactions rates))%num.
Proof.
  revert rates. induction reactions as [|reaction reactions IH];
    intros [|rate rates]; cbn [map zip_with num_sum foldr]; try ring.
  unfold num_sum in IH. rewrite IH. ring.
Qed.

Lemma mass_sources_from_negated_rates (k : Kinetics.t NumericType) rates :
  mass_sources_from_rates k (map num_opp rates)
  = map num_opp (mass_sources_from_rates k rates).
Proof.
  apply list_eq. intros s. rewrite list_lookup_fmap.
  destruct (decide (s < Kinetics.n_species k)) as [Hs|Hs].
  - rewrite !lookup_mass_sources_from_rates by done. cbn. f_equal.
    unfold mass_source_formula. rewrite num_sum_negated_rates. ring.
  - rewrite !(lookup_ge_None_2 (mass_sources_from_rates _ _));
      [done|rewrite length_mass_sources_from_rates; lia..].
Qed.

(** *** The properties that need exact arithmetic *)

(** C1.  In exact arithmetic: a call that meets the preconditions, on an
    instance whose reactions refer to species of its mixture and whose
    aggregator writes one rate per reaction, returns; entry [s] of
    [mass_sources] is then the molar mass of [s] times the sum over the
    reactions of the rate times (product coefficients of [s] minus reactant
    coefficients of [s]), whatever [mass_sources] held before. *)
Theorem compute_mass_sources_formula T rho R_mix Y c h
    (fr : Kinetics.frame NumericType) :
  let k := Kinetics.this fr in
  let rates :=
    ReactionSet.compute_reaction_rates (Kinetics._reaction_set k)
      T rho R_mix Y c h (Kinetics._net_reaction_rates k) in
  preconditions T rho R_mix Y c h fr →
  species_in_range k →
  length rates = Kinetics.n_reactions k →
  ∃ sources,
    Kinetics.compute_mass_sources T rho R_mix Y c h fr
    = (Returned (),
       Kinetics.Frame (Kinetics.set_net_reaction_rates rates k) sources)
    ∧ length sources = Kinetics.n_species k
    ∧ ∀ s, s < Kinetics.n_species k →
           sources !! s = Some (mass_source_formula k rates s).
Proof.
  intros k rates Hpre Hin Hrates.
  exists (mass_sources_from_rates k rates). split; [|split].
  - apply compute_mass_sources_returns; [done..|]. fold k rates. lia.
  - apply length_mass_sources_from_rates.
  - intros s Hs. by apply lookup_mass_sources_from_rates.
Qed.

(** C4.  Mass conservation in exact arithmetic: when every reaction has
    equal reactant and product mass, the mass sources of a valid call sum to
    zero, exactly. *)
Theorem mass_sources_sum_to_zero T rho R_mix Y c h
    (fr : Kinetics.frame NumericType) :
  let k := Kinetics.this fr in
  let rates :=
    ReactionSet.compute_reaction_rates (Kinetics._reaction_set k)
      T rho R_mix Y c h (Kinetics._net_reaction_rates k) in
  let result := Kinetics.compute_mass_sources T rho R_mix Y c h fr in
  preconditions T rho R_mix Y c h fr →
  species_in_range k →
  length rates = Kinetics.n_reactions k →
  Forall (conserves_mass (Kinetics._chem_mixture k))
         (ReactionSet.reactions (Kinetics._reaction_set k)) →
  result.1 = Returned () ∧
  num_sum (Kinetics.mass_sources result.2) = num_zero.
Proof.
  intros k rates result Hpre Hin Hrates Hmass. unfold result.
  rewrite compute_mass_sources_returns by (try done; fold k rates; lia).
  split; [done|]. by apply sum_mass_sources_from_rates.
Qed.

(** Reversal in exact arithmetic: with every rate of the aggregator
    negated, a valid call leaves the negation of every mass source. *)
Theorem negated_rates_negate_mass_sources T rho R_mix Y c h
    (fr : Kinetics.frame NumericType) :
  let k := Kinetics.this fr in
  let rates :=
    ReactionSet.compute_reaction_rates (Kinetics._reaction_set k)
      T rho R_mix Y c h (Kinetics._net_reaction_rates k) in
  let reversed :=
    Kinetics.Frame (rebind (negate_rates (Kinetics._reaction_set k)) k)
                   (Kinetics.mass_sources fr) in
  let result := Kinetics.compute_mass_sources T rho R_mix Y c h fr in
  let result' := Kinetics.compute_mass_sources T rho R_mix Y c h reversed in
  preconditions T rho R_mix Y c h fr →
  species_in_range k →
  length rates = Kinetics.n_reactions k →
  result.1 = Returned () ∧ result'.1 = Returned () ∧
  Kinetics._net_reaction_rates (Kinetics.this result'.2)
  = map num_opp (Kinetics._net_reaction_rates (Kinetics.this result.2)) ∧
  Kinetics.mass_sources result'.2
  = map num_opp (Kinetics.mass_sources result.2).
Proof.
  intros k rates reversed result result' Hpre Hin Hrates.
  unfold result, result'.
  rewrite compute_mass_sources_returns by (try done; fold k rates; lia).
  rewrite compute_mass_sources_returns; [|done..|].
  - cbn. fold k rates. repeat split; try done.
    apply (mass_sources_from_negated_rates k rates).
  - cbn. fold k rates. rewrite length_map.
    unfold Kinetics.n_reactions, ReactionSet.n_reactions in *. cbn. lia.
Qed.

(** The scenario "A -> B" in any exact numeric type, with the molar masses
    and the rate as the numbers 2, 4 and 3 of that type. *)
Lemma A_to_B_mass_sources_exact aggregator T rho R_mix Y c h work sources :
  let k :=
    Kinetics.set_net_reaction_rates work
      (Kinetics.new
         (one_reaction_system [num_of_uint 2; num_of_uint 4]
            reaction_A_to_B aggregator)) in
  let fr := Kinetics.Frame k sources in
  preconditions T rho R_mix Y c h fr →
  aggregator T rho R_mix Y c h work = [num_of_uint 3] →
  Kinetics.compute_mass_sources T rho R_mix Y c h fr
  = (Returned (),
     Kinetics.Frame (Kinetics.set_net_reaction_rates [num_of_uint 3] k)
       [(- num_of_uint 6)%num; num_of_uint 12]).
Proof.
  intros k fr Hpre Hrate.
  rewrite compute_mass_sources_returns; try done.
  - cbn [Kinetics.this fr]. unfold k at 1 2. cbn. rewrite Hrate.
    do 2 f_equal. rewrite !of_uint_S, !of_uint_0. cbv [imap compose].
    repeat (f_equal; try ring).
  - apply (bool_decide_unpack _). by vm_compute.
  - cbn. rewrite Hrate. cbn. lia.
Qed.

(** The scenario "2A -> A + B" in any exact numeric type. *)
Lemma self_paired_mass_sources_exact aggregator T rho R_mix Y c h work sources :
  let k :=
    Kinetics.set_net_reaction_rates work
      (Kinetics.new
         (one_reaction_system [num_one; num_one] reaction_2A_to_A_B aggregator)) in
  let fr := Kinetics.Frame k sources in
  preconditions T rho R_mix Y c h fr →
  aggregator T rho R_mix Y c h work = [num_one] →
  Kinetics.compute_mass_sources T rho R_mix Y c h fr
  = (Returned (),
     Kinetics.Frame (Kinetics.set_net_reaction_rates [num_one] k)
       [(- num_one)%num; num_one]).
Proof.
  intros k fr Hpre Hrate.
  rewrite compute_mass_sources_returns; try done.
  - cbn [Kinetics.this fr]. unfold k at 1 2. cbn. rewrite Hrate.
    do 2 f_equal. rewrite !of_uint_S, !of_uint_0. cbv [imap compose].
    repeat (f_equal; try ring).
  - apply (bool_decide_unpack _). by vm_compute.
  - cbn. rewrite Hrate. cbn. lia.
Qed.

End Exact.

(** ** Assertions, the work array and the two objects of a call *)

Section CallProperties.
Context {NumericType : Type} `{Numeric NumericType}.

(** A call that misses a precondition stops at the assertion that checks
    it, with nothing written. *)
Lemma compute_mass_sources_rejects T rho R_mix Y c h
    (fr : Kinetics.frame NumericType) :
  ¬ preconditions T rho R_mix Y c h fr →
  Kinetics.compute_mass_sources T rho R_mix Y c h fr = (AssertionFailed, fr).
Proof.
  intros Hnot.
  unfold Kinetics.compute_mass_sources.
  erewrite bind_returned by reflexivity.
  repeat lazymatch goal with
  | |- ((antioch_assert_greater ?x ?y ≫= _) _ = _) =>
      destruct (num_gt x y) eqn:?;
      [ erewrite bind_returned
          by (unfold antioch_assert_greater;
              match goal with Hgt : num_gt _ _ = true |- _ => rewrite Hgt end;
              apply assert_true)
      | apply bind_assertion_failed; unfold antioch_assert_greater;
        match goal with Hgt : num_gt _ _ = false |- _ => rewrite Hgt end;
        apply assert_false ]
  | |- ((antioch_assert_equal_to ?m ?n ≫= _) _ = _) =>
      destruct (decide (m = n));
      [ erewrite bind_returned
          by (unfold antioch_assert_equal_to;
              rewrite bool_decide_eq_true_2 by done; apply assert_true)
      | apply bind_assertion_failed; unfold antioch_assert_equal_to;
        rewrite bool_decide_eq_false_2 by done; apply assert_false ]
  | |- ((Kinetics.mass_sources_size ≫= _) _ = _) =>
      erewrite bind_returned by reflexivity
  end.
  destruct Hnot. by repeat split.
Qed.

(** Past the assertions, no assertion is left to fail. *)
Lemma compute_mass_sources_accepts T rho R_mix Y c h
    (fr : Kinetics.frame NumericType) :
  preconditions T rho R_mix Y c h fr →
  (Kinetics.compute_mass_sources T rho R_mix Y c h fr).1 ≠ AssertionFailed.
Proof.
  intros (HT & Hrho & HR & HY & Hc & Hh & Hsources & Hwork).
  pass_assertions.
  apply bind_never_asserts.
  - intros s. apply for_range_never_asserts. clear s. intros rxn s.
    apply bind_never_asserts.
    + clear s. intros s. unfold Kinetics.net_reaction_rates_at.
      by destruct (_ !! _).
    + clear s. intros rate s. apply bind_never_asserts.
      * clear s. intros s. apply for_range_never_asserts. clear s. intros r s.
        unfold Kinetics.mass_sources_assign. by case_bool_decide.
      * clear s. intros _ s. apply for_range_never_asserts. clear s. intros p s.
        unfold Kinetics.mass_sources_assign. by case_bool_decide.
  - intros _ s. apply for_range_never_asserts. clear s. intros i s.
    unfold Kinetics.mass_sources_assign. by case_bool_decide.
Qed.

(** Whatever a call does, the instance stays bound to its reaction set. *)
Lemma compute_mass_sources_keeps_binding reaction_set T rho R_mix Y c h
    (fr : Kinetics.frame NumericType) :
  aggregator_fills reaction_set →
  bound_to reaction_set (Kinetics.this fr) →
  bound_to reaction_set
    (Kinetics.this (Kinetics.compute_mass_sources T rho R_mix Y c h fr).2).
Proof.
  intros Hfills.
  set (P := λ fr : Kinetics.frame NumericType,
              bound_to reaction_set (Kinetics.this fr)).
  assert (Hassign : ∀ op i v s, P s → P (Kinetics.mass_sources_assign op i v s).2).
  { intros op i v s Hs. unfold Kinetics.mass_sources_assign.
    by case_bool_decide. }
  assert (Hassert : ∀ b s, P s → P (antioch_assert b s).2) by done.
  revert fr. change (∀ fr, P fr →
    P (Kinetics.compute_mass_sources T rho R_mix Y c h fr).2).
  unfold Kinetics.compute_mass_sources.
  apply bind_preserves; [done|]. intros this.
  repeat (apply bind_preserves; [by apply Hassert|intros _]).
  apply bind_preserves; [done|]. intros size.
  repeat (apply bind_preserves; [by apply Hassert|intros _]).
  apply bind_preserves; [done|]. intros _.
  apply bind_preserves.
  { intros s (Hset & Hmix & Hlen). unfold P, bound_to. cbn.
    unfold Kinetics.reaction_set in Hset. rewrite Hset, Hfills. done. }
  intros _. apply bind_preserves.
  - intros s. apply for_range_preserves. clear s. intros rxn.
    apply bind_preserves.
    { intros s Hs. unfold Kinetics.net_reaction_rates_at. by destruct (_ !! _). }
    intros rate. apply bind_preserves.
    + intros s. apply for_range_preserves. intros r. apply Hassign.
    + intros _ s. apply for_range_preserves. intros p. apply Hassign.
  - intros _ s. apply for_range_preserves. intros i. apply Hassign.
Qed.

End CallProperties.

(** ** Properties of a call and of the life of an instance *)

Section KineticsProperties.
Context {NumericType : Type} `{Numeric NumericType}.

(** C6.  Overwrite, not accumulate: a valid call followed by a second call
    with the same arguments, the aggregator writing the same rates again,
    leaves in [mass_sources] what the first call left. *)
Theorem second_call_overwrites T rho R_mix Y c h
    (fr : Kinetics.frame NumericType) :
  let k := Kinetics.this fr in
  let aggregator :=
    ReactionSet.compute_reaction_rates (Kinetics._reaction_set k)
      T rho R_mix Y c h in
  let rates := aggregator (Kinetics._net_reaction_rates k) in
  let first := Kinetics.compute_mass_sources T rho R_mix Y c h fr in
  let second := Kinetics.compute_mass_sources T rho R_mix Y c h first.2 in
  preconditions T rho R_mix Y c h fr →
  species_in_range k →
  length rates = Kinetics.n_reactions k →
  aggregator rates = rates →
  first.1 = Returned () ∧ second.1 = Returned () ∧
  Kinetics.mass_sources second.2 = Kinetics.mass_sources first.2.
Proof.
  intros k aggregator rates first second Hpre Hin Hlen Hsame.
  assert (Hfirst : first = (Returned (),
            Kinetics.Frame (Kinetics.set_net_reaction_rates rates k)
              (mass_sources_from_rates k rates))).
  { apply compute_mass_sources_returns; [done..|]. fold k aggregator rates. lia. }
  unfold second. rewrite Hfirst. cbn [fst snd].
  rewrite compute_mass_sources_returns.
  - cbn. fold aggregator. by rewrite Hsame.
  - destruct Hpre as (HT & Hrho & HR & HY & Hc & Hh & Hsources & Hwork).
    repeat split; try done. cbn.
    apply (length_mass_sources_from_rates k).
  - done.
  - cbn. fold aggregator. rewrite Hsame.
    change (Kinetics.n_reactions k ≤ length rates). lia.
Qed.

(** C7.  Precondition rejection: a call with a temperature, density or gas
    constant that is not above zero, or with a state vector or an output
    vector whose length is not the number of species, fails an assertion. *)
Theorem precondition_violation_asserts T rho R_mix Y c h
    (fr : Kinetics.frame NumericType) :
  let k := Kinetics.this fr in
  num_gt T num_zero = false ∨
  num_gt rho num_zero = false ∨
  num_gt R_mix num_zero = false ∨
  length Y ≠ Kinetics.n_species k ∨
  length c ≠ Kinetics.n_species k ∨
  length h ≠ Kinetics.n_species k ∨
  length (Kinetics.mass_sources fr) ≠ Kinetics.n_species k →
  (Kinetics.compute_mass_sources T rho R_mix Y c h fr).1 = AssertionFailed.
Proof.
  intros k Hviolation. rewrite compute_mass_sources_rejects; [done|].
  intros (HT & Hrho & HR & HY & Hc & Hh & Hsources & Hwork).
  subst k. destruct Hviolation as [?|[?|[?|[?|[?|[?|?]]]]]]; congruence.
Qed.

(** C8.  The work array: the constructor binds the instance to the reaction
    set and allocates one zero per reaction; in every state the instance
    reaches through calls, however they end, the work array has one entry
    per reaction, and the instance reports the reaction set it was built on
    and the counts of that set and of its mixture. *)
Theorem work_array_invariant (reaction_set : ReactionSet.t NumericType)
    (k : Kinetics.t NumericType) :
  aggregator_fills reaction_set →
  reachable reaction_set k →
  Kinetics.reaction_set (Kinetics.new reaction_set) = reaction_set ∧
  Kinetics._net_reaction_rates (Kinetics.new reaction_set)
  = replicate (ReactionSet.n_reactions reaction_set) num_zero ∧
  length (Kinetics._net_reaction_rates k) = Kinetics.n_reactions k ∧
  Kinetics.reaction_set k = reaction_set ∧
  Kinetics.n_reactions k = ReactionSet.n_reactions reaction_set ∧
  Kinetics.n_species k
  = ChemicalMixture.n_species (ReactionSet.chemical_mixture reaction_set).
Proof.
  intros Hfills Hreach. split; [done|]. split; [done|].
  assert (bound_to reaction_set k) as (Hset & Hmix & Hlen).
  { induction Hreach as [|k T rho R_mix Y c h sources Hreach IH].
    - repeat split. cbn. apply length_replicate.
    - by apply compute_mass_sources_keeps_binding. }
  unfold Kinetics.n_reactions, Kinetics.n_species, Kinetics.reaction_set in *.
  by rewrite Hset, Hmix.
Qed.

(** C9.  Atomicity: every assertion comes before the first write, so a call
    that misses a precondition, or that ends in a failed assertion, leaves
    the caller's [mass_sources] and the instance with its work array as they
    were. *)
Theorem assertion_failure_writes_nothing T rho R_mix Y c h
    (fr : Kinetics.frame NumericType) :
  ¬ preconditions T rho R_mix Y c h fr ∨
  (Kinetics.compute_mass_sources T rho R_mix Y c h fr).1 = AssertionFailed →
  Kinetics.compute_mass_sources T rho R_mix Y c h fr = (AssertionFailed, fr).
Proof.
  intros [Hnot|Hfailed]; [by apply compute_mass_sources_rejects|].
  destruct (decide (preconditions T rho R_mix Y c h fr)) as [Hpre|Hnot].
  - by apply compute_mass_sources_accepts in Hpre.
  - by apply compute_mass_sources_rejects.
Qed.

(** C10.  The state reaches the result through the rates only: two valid
    calls on an instance, with any states, any contents of the work array
    and any old contents of [mass_sources], end alike and leave the same
    objects when the aggregator writes the same rates in both. *)
Theorem same_rates_same_mass_sources (k : Kinetics.t NumericType)
    T1 rho1 R_mix1 Y1 c1 h1 work1 sources1
    T2 rho2 R_mix2 Y2 c2 h2 work2 sources2 :
  let fr1 := Kinetics.Frame (Kinetics.set_net_reaction_rates work1 k) sources1 in
  let fr2 := Kinetics.Frame (Kinetics.set_net_reaction_rates work2 k) sources2 in
  preconditions T1 rho1 R_mix1 Y1 c1 h1 fr1 →
  preconditions T2 rho2 R_mix2 Y2 c2 h2 fr2 →
  ReactionSet.compute_reaction_rates (Kinetics._reaction_set k)
    T1 rho1 R_mix1 Y1 c1 h1 work1
  = ReactionSet.compute_reaction_rates (Kinetics._reaction_set k)
      T2 rho2 R_mix2 Y2 c2 h2 work2 →
  Kinetics.compute_mass_sources T1 rho1 R_mix1 Y1 c1 h1 fr1
  = Kinetics.compute_mass_sources T2 rho2 R_mix2 Y2 c2 h2 fr2.
Proof.
  intros fr1 fr2 (HT1 & Hrho1 & HR1 & HY1 & Hc1 & Hh1 & Hsources1 & Hwork1)
    (HT2 & Hrho2 & HR2 & HY2 & Hc2 & Hh2 & Hsources2 & Hwork2) Hrates.
  subst fr1 fr2.
  assert (Hlen : length sources2 = length sources1)
    by (unfold Kinetics.n_species in Hsources1, Hsources2;
        cbn in Hsources1, Hsources2; congruence).
  etransitivity; [|symmetry].
  - pass_assertions.
    cbn [Kinetics.this Kinetics.mass_sources Kinetics._net_reaction_rates
         Kinetics._reaction_set Kinetics.set_net_reaction_rates].
    reflexivity.
  - pass_assertions.
    cbn [Kinetics.this Kinetics.mass_sources Kinetics._net_reaction_rates
         Kinetics._reaction_set Kinetics.set_net_reaction_rates].
    rewrite Hlen, <- Hrates. reflexivity.
Qed.

End KineticsProperties.

(** ** The two scenarios, in [double] arithmetic *)

(** C2.  Species A of molar mass 2.0, species B of molar mass 4.0 and the
    reaction "A -> B": when the aggregator writes the rate 3.0, a valid call
    leaves [mass_sources = [-6.0, 12.0]]. *)
Theorem A_to_B_mass_sources aggregator T rho R_mix Y c h work sources :
  let k :=
    Kinetics.set_net_reaction_rates work
      (Kinetics.new
         (one_reaction_system [2.0; 4.0]%float reaction_A_to_B aggregator)) in
  let fr := Kinetics.Frame k sources in
  preconditions T rho R_mix Y c h fr →
  aggregator T rho R_mix Y c h work = [3.0]%float →
  Kinetics.compute_mass_sources T rho R_mix Y c h fr
  = (Returned (),
     Kinetics.Frame (Kinetics.set_net_reaction_rates [3.0]%float k)
       [-6.0; 12.0]%float).
Proof.
  intros k fr Hpre Hrate.
  rewrite compute_mass_sources_returns; try done.
  - cbn [Kinetics.this fr]. unfold k at 1 2. cbn. rewrite Hrate.
    vm_compute. reflexivity.
  - apply (bool_decide_unpack _). by vm_compute.
  - cbn. rewrite Hrate. cbn. lia.
Qed.

(** C3.  Species A and B of molar mass 1.0 and the reaction "2A -> A + B",
    in which A is a reactant with coefficient 2 and a product with
    coefficient 1: both contributions reach the entry of A, and with the
    rate 1.0 a valid call leaves [mass_sources = [-1.0, 1.0]]. *)
Theorem self_paired_mass_sources aggregator T rho R_mix Y c h work sources :
  let k :=
    Kinetics.set_net_reaction_rates work
      (Kinetics.new
         (one_reaction_system [1.0; 1.0]%float reaction_2A_to_A_B aggregator)) in
  let fr := Kinetics.Frame k sources in
  preconditions T rho R_mix Y c h fr →
  aggregator T rho R_mix Y c h work = [1.0]%float →
  Kinetics.compute_mass_sources T rho R_mix Y c h fr
  = (Returned (),
     Kinetics.Frame (Kinetics.set_net_reaction_rates [1.0]%float k)
       [-1.0; 1.0]%float).
Proof.
  intros k fr Hpre Hrate.
  rewrite compute_mass_sources_returns; try done.
  - cbn [Kinetics.this fr]. unfold k at 1 2. cbn. rewrite Hrate.
    vm_compute. reflexivity.
  - apply (bool_decide_unpack _). by vm_compute.
  - cbn. rewrite Hrate. cbn. lia.
Qed.

(** ** The properties at concrete calls *)

(** The integer call meets the preconditions, and its reactions refer to
    species of the mixture. *)
Lemma Z_call_valid :
  preconditions 300%Z 1%Z 287%Z [1; 0]%Z [1; 1]%Z [0; 0]%Z Z_frame.
Proof. apply (bool_decide_unpack _). by vm_compute. Qed.

Lemma Z_system_in_range : species_in_range (Kinetics.this Z_frame).
Proof. apply (bool_decide_unpack _). by vm_compute. Qed.

(** The constant aggregator keeps the contract on the work array. *)
Lemma constant_rates_fills {NumericType} `{Numeric NumericType}
    molar_masses reaction (rate : NumericType) :
  aggregator_fills (one_reaction_system molar_masses reaction (constant_rates rate)).
Proof. intros T rho R_mix Y c h buffer. apply length_replicate. Qed.

(** C1 at the integer call: the rate 3 gives the formula at both species. *)
Lemma compute_mass_sources_formula_witness :
  preconditions 300%Z 1%Z 287%Z [1; 0]%Z [1; 1]%Z [0; 0]%Z Z_frame ∧
  species_in_range (Kinetics.this Z_frame) ∧
  ∃ sources,
    Z_call Z_frame
    = (Returned (),
       Kinetics.Frame
         (Kinetics.set_net_reaction_rates [3%Z] (Kinetics.new Z_system)) sources)
    ∧ length sources = 2
    ∧ ∀ s, s < 2 →
           sources !! s = Some (mass_source_formula (Kinetics.new Z_system) [3%Z] s).
Proof.
  split; [exact Z_call_valid|]. split; [exact Z_system_in_range|].
  exact (compute_mass_sources_formula 300%Z 1%Z 287%Z [1; 0]%Z [1; 1]%Z [0; 0]%Z
           Z_frame Z_call_valid Z_system_in_range eq_refl).
Defined.

(** C2 at a call at 300 K on old contents of both vectors. *)
Lemma A_to_B_mass_sources_witness :
  preconditions 300.0%float 1.25%float 287.0%float
    [0.5; 0.5]%float [0.25; 0.5]%float [0.0; 0.0]%float double_A_to_B_frame ∧
  double_call double_A_to_B_frame
  = (Returned (),
     Kinetics.Frame
       (Kinetics.set_net_reaction_rates [3.0]%float
          (Kinetics.this double_A_to_B_frame))
       [-6.0; 12.0]%float).
Proof.
  assert (Hvalid : preconditions 300.0%float 1.25%float 287.0%float
    [0.5; 0.5]%float [0.25; 0.5]%float [0.0; 0.0]%float double_A_to_B_frame)
    by (by repeat split).
  split; [exact Hvalid|].
  exact (A_to_B_mass_sources (constant_rates 3.0%float)
           300.0%float 1.25%float 287.0%float
           [0.5; 0.5]%float [0.25; 0.5]%float [0.0; 0.0]%float
           [0.5]%float [7.0; 7.0]%float Hvalid eq_refl).
Defined.

(** C3 at a call at 300 K on old contents of both vectors. *)
Lemma self_paired_mass_sources_witness :
  preconditions 300.0%float 1.25%float 287.0%float
    [0.5; 0.5]%float [0.25; 0.5]%float [0.0; 0.0]%float double_self_paired_frame ∧
  double_call double_self_paired_frame
  = (Returned (),
     Kinetics.Frame
       (Kinetics.set_net_reaction_rates [1.0]%float
          (Kinetics.this double_self_paired_frame))
       [-1.0; 1.0]%float).
Proof.
  assert (Hvalid : preconditions 300.0%float 1.25%float 287.0%float
    [0.5; 0.5]%float [0.25; 0.5]%float [0.0; 0.0]%float double_self_paired_frame)
    by (by repeat split).
  split; [exact Hvalid|].
  exact (self_paired_mass_sources (constant_rates 1.0%float)
           300.0%float 1.25%float 287.0%float
           [0.5; 0.5]%float [0.25; 0.5]%float [0.0; 0.0]%float
           [0.5]%float [7.0; 7.0]%float Hvalid eq_refl).
Defined.

(** C4 at "2A -> B" with molar masses 2 and 4: the sources -12 and 12. *)
Lemma mass_sources_sum_to_zero_witness :
  Forall (conserves_mass (Kinetics._chem_mixture (Kinetics.this Z_conserving_frame)))
         (ReactionSet.reactions
            (Kinetics._reaction_set (Kinetics.this Z_conserving_frame))) ∧
  (Z_call Z_conserving_frame).1 = Returned () ∧
  num_sum (Kinetics.mass_sources (Z_call Z_conserving_frame).2) = 0%Z.
Proof.
  assert (Hmass : Forall
    (conserves_mass (Kinetics._chem_mixture (Kinetics.this Z_conserving_frame)))
    (ReactionSet.reactions
       (Kinetics._reaction_set (Kinetics.this Z_conserving_frame))))
    by (by repeat constructor).
  split; [exact Hmass|].
  refine (mass_sources_sum_to_zero 300%Z 1%Z 287%Z [1; 0]%Z [1; 1]%Z [0; 0]%Z
            Z_conserving_frame _ _ eq_refl Hmass).
  - by repeat split.
  - apply (bool_decide_unpack _). by vm_compute.
Defined.

(** Reversal at the integer call: [-6, 12] becomes [6, -12]. *)
Lemma negated_rates_negate_mass_sources_witness :
  Kinetics.mass_sources (Z_call Z_frame).2 = [-6; 12]%Z ∧
  Kinetics.mass_sources
    (Z_call (Kinetics.Frame
               (rebind (negate_rates Z_system) (Kinetics.new Z_system))
               [7; 7]%Z)).2
  = [6; -12]%Z.
Proof.
  split; [reflexivity|].
  pose proof (negated_rates_negate_mass_sources
    300%Z 1%Z 287%Z [1; 0]%Z [1; 1]%Z [0; 0]%Z
    Z_frame Z_call_valid Z_system_in_range eq_refl) as (_ & _ & _ & Hnegated).
  exact Hnegated.
Defined.

(** C6 at the integer call, run twice. *)
Lemma second_call_overwrites_witness :
  (Z_call Z_frame).1 = Returned () ∧
  (Z_call (Z_call Z_frame).2).1 = Returned () ∧
  Kinetics.mass_sources (Z_call (Z_call Z_frame).2).2
  = Kinetics.mass_sources (Z_call Z_frame).2.
Proof.
  exact (second_call_overwrites 300%Z 1%Z 287%Z [1; 0]%Z [1; 1]%Z [0; 0]%Z
           Z_frame Z_call_valid Z_system_in_range eq_refl eq_refl).
Defined.

(** C7 at temperature zero and at a vector of mass fractions that is too
    short. *)
Lemma precondition_violation_asserts_witness :
  (Z_cold_call Z_frame).1 = AssertionFailed ∧
  (Z_short_call Z_frame).1 = AssertionFailed.
Proof.
  split.
  - apply (precondition_violation_asserts
             0%Z 1%Z 287%Z [1; 0]%Z [1; 1]%Z [0; 0]%Z Z_frame).
    left. reflexivity.
  - apply (precondition_violation_asserts
             300%Z 1%Z 287%Z [1]%Z [1; 1]%Z [0; 0]%Z Z_frame).
    do 3 right. left. cbn. lia.
Defined.

(** C8 at the state the integer call leaves. *)
Lemma work_array_invariant_witness :
  aggregator_fills Z_system ∧
  reachable Z_system (Kinetics.this (Z_call Z_frame).2) ∧
  length (Kinetics._net_reaction_rates (Kinetics.this (Z_call Z_frame).2)) = 1 ∧
  Kinetics.n_reactions (Kinetics.this (Z_call Z_frame).2) = 1 ∧
  Kinetics.n_species (Kinetics.this (Z_call Z_frame).2) = 2.
Proof.
  assert (Hfills : aggregator_fills Z_system) by apply constant_rates_fills.
  assert (Hreach : reachable Z_system (Kinetics.this (Z_call Z_frame).2))
    by apply reachable_call, reachable_new.
  split; [exact Hfills|]. split; [exact Hreach|].
  pose proof (work_array_invariant Z_system _ Hfills Hreach)
    as (_ & _ & Hlen & _ & Hreactions & Hspecies).
  split; [exact Hlen|]. split; [exact Hreactions|exact Hspecies].
Defined.

(** C9 at temperature zero: the old contents [7, 7] and the work array stay. *)
Lemma assertion_failure_writes_nothing_witness :
  (Z_cold_call Z_frame).1 = AssertionFailed ∧
  Z_cold_call Z_frame = (AssertionFailed, Z_frame).
Proof.
  assert (Hfailed : (Z_cold_call Z_frame).1 = AssertionFailed) by reflexivity.
  split; [exact Hfailed|].
  exact (assertion_failure_writes_nothing
           0%Z 1%Z 287%Z [1; 0]%Z [1; 1]%Z [0; 0]%Z Z_frame (or_intror Hfailed)).
Defined.

(** C10 at two states and two work arrays with the same rates written. *)
Lemma same_rates_same_mass_sources_witness :
  Kinetics.compute_mass_sources 300%Z 1%Z 287%Z [1; 0]%Z [1; 1]%Z [0; 0]%Z
    (Kinetics.Frame (Kinetics.set_net_reaction_rates [0%Z] (Kinetics.new Z_system))
       [7; 7]%Z)
  = Kinetics.compute_mass_sources 500%Z 2%Z 300%Z [0; 1]%Z [2; 2]%Z [1; 1]%Z
      (Kinetics.Frame (Kinetics.set_net_reaction_rates [9%Z] (Kinetics.new Z_system))
         [1; 2]%Z).
Proof.
  apply (same_rates_same_mass_sources (Kinetics.new Z_system)
           300%Z 1%Z 287%Z [1; 0]%Z [1; 1]%Z [0; 0]%Z [0%Z] [7; 7]%Z
           500%Z 2%Z 300%Z [0; 1]%Z [2; 2]%Z [1; 1]%Z [9%Z] [1; 2]%Z).
  - by repeat split.
  - by repeat split.
  - reflexivity.
Defined.

(** ** Beyond the claims: how a call ends and what it touches *)

Section Outcomes.
Context {NumericType : Type} `{Numeric NumericType}.

(** An entry that names a species past the end makes its loop index past
    the end. *)
Lemma for_each_entries_out_of_bounds op rate entries
    (fr : Kinetics.frame NumericType) :
  ¬ entries_in_range (length (Kinetics.mass_sources fr)) entries →
  (for_each entries
     (λ e, Kinetics.mass_sources_assign op e.1 (num_of_uint e.2 * rate)%num) fr).1
  = OutOfBounds.
Proof.
  revert fr. induction entries as [|[id stoich] entries IH]; intros fr Hout.
  { destruct Hout. constructor. }
  cbn [for_each].
  destruct (decide (id < length (Kinetics.mass_sources fr))) as [Hid|Hid].
  - erewrite bind_returned; last first.
    { unfold Kinetics.mass_sources_assign. by rewrite bool_decide_eq_true_2. }
    apply IH. cbn. rewrite length_alter. intros Hin. apply Hout.
    by constructor.
  - erewrite bind_out_of_bounds; [done|].
    unfold Kinetics.mass_sources_assign. by rewrite bool_decide_eq_false_2.
Qed.

(** The loop over the reactions indexes past the end when the work array is
    short of a rate or a reaction names a species past the end. *)
Lemma for_range_reactions_out_of_bounds (reactions : list Reaction.t) :
  ∀ pre_reactions pre_rates rates (fr : Kinetics.frame NumericType),
    length pre_reactions = length pre_rates →
    Kinetics._net_reaction_rates (Kinetics.this fr) = pre_rates ++ rates →
    ¬ (length reactions ≤ length rates ∧
       Forall (reaction_in_range (length (Kinetics.mass_sources fr))) reactions) →
    (for_range (length pre_reactions) (length reactions) (λ rxn,
      let reaction := nth rxn (pre_reactions ++ reactions) Reaction.empty in
      rate ← Kinetics.net_reaction_rates_at rxn;
      for_upto (Reaction.n_reactants reaction) (λ r,
        let r_id := Reaction.reactant_id reaction r in
        let r_stoich := Reaction.reactant_stoichiometric_coefficient reaction r in
        Kinetics.mass_sources_assign num_sub r_id (num_of_uint r_stoich * rate)%num);;
      for_upto (Reaction.n_products reaction) (λ p,
        let p_id := Reaction.product_id reaction p in
        let p_stoich := Reaction.product_stoichiometric_coefficient reaction p in
        Kinetics.mass_sources_assign num_add p_id (num_of_uint p_stoich * rate)%num)) fr).1
    = OutOfBounds.
Proof.
  induction reactions as [|reaction reactions IH];
    intros pre_reactions pre_rates rates fr Hpre Hrates Hout.
  { destruct Hout. split; [cbn; lia|constructor]. }
  cbn [length for_range]. cbn zeta. rewrite nth_middle.
  destruct rates as [|rate rates].
  { erewrite bind_out_of_bounds; [done|]. apply bind_out_of_bounds.
    unfold Kinetics.net_reaction_rates_at.
    rewrite Hrates, app_nil_r, lookup_ge_None_2 by lia. done. }
  assert (Hread : Kinetics.net_reaction_rates_at (length pre_reactions) fr
                  = (Returned rate, fr)).
  { unfold Kinetics.net_reaction_rates_at.
    by rewrite Hrates, Hpre, list_lookup_middle. }
  unfold Reaction.n_reactants, Reaction.reactant_id,
    Reaction.reactant_stoichiometric_coefficient,
    Reaction.n_products, Reaction.product_id,
    Reaction.product_stoichiometric_coefficient.
  destruct (decide (entries_in_range (length (Kinetics.mass_sources fr))
                      (Reaction.reactants reaction))) as [Hreactants|Hreactants].
  2:{ pose proof (for_each_entries_out_of_bounds num_sub rate _ fr Hreactants)
        as Hfail.
      rewrite <- (for_upto_nth (0, 0)) in Hfail.
      destruct (for_upto _ _ fr) as [o s'] eqn:Hloop. cbn in Hfail. subst o.
      erewrite bind_out_of_bounds; [done|].
      erewrite bind_returned by exact Hread.
      exact (bind_out_of_bounds _ _ _ _ Hloop). }
  pose proof (for_each_entries num_sub rate _ fr Hreactants) as Hsub.
  rewrite <- (for_upto_nth (0, 0)) in Hsub.
  set (fr' := Kinetics.Frame (Kinetics.this fr)
                (apply_entries num_sub rate (Reaction.reactants reaction)
                   (Kinetics.mass_sources fr))) in *.
  destruct (decide (entries_in_range (length (Kinetics.mass_sources fr))
                      (Reaction.products reaction))) as [Hproducts|Hproducts].
  2:{ assert (Hproducts' : ¬ entries_in_range (length (Kinetics.mass_sources fr'))
                             (Reaction.products reaction))
        by (cbn; by rewrite length_apply_entries).
      pose proof (for_each_entries_out_of_bounds num_add rate _ fr' Hproducts')
        as Hfail.
      rewrite <- (for_upto_nth (0, 0)) in Hfail.
      destruct (for_upto _ _ fr') as [o s'] eqn:Hloop. cbn in Hfail. subst o.
      erewrite bind_out_of_bounds; [done|].
      erewrite bind_returned by exact Hread.
      erewrite bind_returned by exact Hsub.
      exact Hloop. }
  assert (Hproducts' : entries_in_range (length (Kinetics.mass_sources fr'))
                         (Reaction.products reaction))
    by (cbn; by rewrite length_apply_entries).
  pose proof (for_each_entries num_add rate _ fr' Hproducts') as Hadd.
  rewrite <- (for_upto_nth (0, 0)) in Hadd.
  erewrite bind_returned; last first.
  { erewrite bind_returned by exact Hread.
    erewrite bind_returned by exact Hsub. exact Hadd. }
  specialize (IH (pre_reactions ++ [reaction]) (pre_rates ++ [rate]) rates).
  rewrite <- !app_assoc, length_app, Nat.add_1_r in IH. cbn [app] in IH.
  apply IH.
  - rewrite !length_app. cbn. lia.
  - done.
  - cbn. rewrite !length_apply_entries. intros [Hlen Hin]. apply Hout.
    split; [cbn; lia|]. constructor; [by split|done].
Qed.

(** A valid call whose indices do not stay within the vectors indexes past
    the end. *)
Lemma compute_mass_sources_out_of_bounds T rho R_mix Y c h
    (fr : Kinetics.frame NumericType) :
  let k := Kinetics.this fr in
  let rates :=
    ReactionSet.compute_reaction_rates (Kinetics._reaction_set k)
      T rho R_mix Y c h (Kinetics._net_reaction_rates k) in
  preconditions T rho R_mix Y c h fr →
  ¬ indices_valid k rates →
  (Kinetics.compute_mass_sources T rho R_mix Y c h fr).1 = OutOfBounds.
Proof.
  intros k rates (HT & Hrho & HR & HY & Hc & Hh & Hsources & Hwork) Hout.
  pass_assertions. cbn [Kinetics.this Kinetics.mass_sources].
  rewrite Hsources. fold k. fold rates.
  match goal with |- ((?loop ≫= _) ?s).1 = _ =>
    assert (Hloop : (loop s).1 = OutOfBounds) end.
  { unfold for_upto, Kinetics.n_reactions, ReactionSet.n_reactions,
      ReactionSet.reaction.
    apply (for_range_reactions_out_of_bounds _ [] [] rates); [done..|].
    cbn. rewrite length_replicate. exact Hout. }
  match goal with |- ((?loop ≫= _) ?s).1 = _ =>
    destruct (loop s) as [o s'] eqn:Hrun end.
  cbn in Hloop. subst o. by erewrite bind_out_of_bounds.
Qed.

(** A call returns only with its preconditions met and its indices within
    the vectors. *)
Lemma compute_mass_sources_returned T rho R_mix Y c h
    (fr : Kinetics.frame NumericType) :
  let k := Kinetics.this fr in
  let rates :=
    ReactionSet.compute_reaction_rates (Kinetics._reaction_set k)
      T rho R_mix Y c h (Kinetics._net_reaction_rates k) in
  (Kinetics.compute_mass_sources T rho R_mix Y c h fr).1 = Returned () →
  preconditions T rho R_mix Y c h fr ∧ indices_valid k rates.
Proof.
  intros k rates Hreturned.
  destruct (decide (preconditions T rho R_mix Y c h fr)) as [Hpre|Hpre];
    [|by rewrite compute_mass_sources_rejects in Hreturned].
  destruct (decide (indices_valid k rates)) as [Hvalid|Hvalid]; [done|].
  by rewrite compute_mass_sources_out_of_bounds in Hreturned.
Qed.

End Outcomes.

(** ** Beyond the claims: properties for every numeric type *)

Section MoreProperties.
Context {NumericType : Type} `{Numeric NumericType}.

(** X1.  How a call ends: in a failed assertion exactly when a precondition
    is missed; normally exactly when the preconditions hold, the work array
    holds a rate for every reaction and every species index of a reaction
    is below the number of species; and otherwise, the preconditions met,
    by indexing a vector past its end. *)
Theorem compute_mass_sources_outcome T rho R_mix Y c h
    (fr : Kinetics.frame NumericType) :
  let k := Kinetics.this fr in
  let rates :=
    ReactionSet.compute_reaction_rates (Kinetics._reaction_set k)
      T rho R_mix Y c h (Kinetics._net_reaction_rates k) in
  let outcome := (Kinetics.compute_mass_sources T rho R_mix Y c h fr).1 in
  (outcome = AssertionFailed ↔ ¬ preconditions T rho R_mix Y c h fr) ∧
  (outcome = Returned () ↔
     preconditions T rho R_mix Y c h fr ∧ indices_valid k rates) ∧
  (outcome = OutOfBounds ↔
     preconditions T rho R_mix Y c h fr ∧ ¬ indices_valid k rates).
Proof.
  intros k rates outcome. unfold outcome.
  destruct (decide (preconditions T rho R_mix Y c h fr)) as [Hpre|Hpre].
  - destruct (decide (indices_valid k rates)) as [Hvalid|Hvalid].
    + rewrite compute_mass_sources_returns by (try done; apply Hvalid). cbn.
      split; [|split]; split; intros ?; first [done|tauto].
    + rewrite compute_mass_sources_out_of_bounds by done.
      split; [|split]; split; intros ?; first [done|tauto].
  - rewrite compute_mass_sources_rejects by done. cbn.
    split; [|split]; split; intros ?; first [done|tauto].
Qed.

(** X2.  No call, however it ends, changes the length of the caller's
    [mass_sources]. *)
Theorem compute_mass_sources_keeps_length T rho R_mix Y c h
    (fr : Kinetics.frame NumericType) :
  length (Kinetics.mass_sources
            (Kinetics.compute_mass_sources T rho R_mix Y c h fr).2)
  = length (Kinetics.mass_sources fr).
Proof.
  set (n := length (Kinetics.mass_sources fr)).
  set (P := λ fr : Kinetics.frame NumericType,
              length (Kinetics.mass_sources fr) = n).
  assert (Hassign : ∀ op i v s, P s → P (Kinetics.mass_sources_assign op i v s).2).
  { intros op i v s Hs. unfold Kinetics.mass_sources_assign.
    case_bool_decide; [|done]. unfold P. cbn. by rewrite length_alter. }
  assert (Hassert : ∀ b s, P s → P (antioch_assert b s).2) by done.
  assert (Hfr : P fr) by done. revert Hfr. generalize fr.
  change (∀ fr, P fr →
    P (Kinetics.compute_mass_sources T rho R_mix Y c h fr).2).
  unfold Kinetics.compute_mass_sources.
  apply bind_preserves; [done|]. intros this.
  repeat (apply bind_preserves; [by apply Hassert|intros _]).
  apply bind_preserves; [done|]. intros size.
  repeat (apply bind_preserves; [by apply Hassert|intros _]).
  apply bind_preserves.
  { intros s Hs. unfold P. cbn. by rewrite length_replicate. }
  intros _. apply bind_preserves; [done|].
  intros _. apply bind_preserves.
  - intros s. apply for_range_preserves. clear s. intros rxn.
    apply bind_preserves.
    { intros s Hs. unfold Kinetics.net_reaction_rates_at. by destruct (_ !! _). }
    intros rate. apply bind_preserves.
    + intros s. apply for_range_preserves. intros r. apply Hassign.
    + intros _ s. apply for_range_preserves. intros p. apply Hassign.
  - intros _ s. apply for_range_preserves. intros i. apply Hassign.
Qed.

(** X3.  After a call that returns, the work array holds exactly what the
    aggregator wrote: the loops read it and never write to it. *)
Theorem returned_work_array_holds_rates T rho R_mix Y c h
    (fr : Kinetics.frame NumericType) :
  let k := Kinetics.this fr in
  let result := Kinetics.compute_mass_sources T rho R_mix Y c h fr in
  result.1 = Returned () →
  Kinetics._net_reaction_rates (Kinetics.this result.2)
  = ReactionSet.compute_reaction_rates (Kinetics._reaction_set k)
      T rho R_mix Y c h (Kinetics._net_reaction_rates k).
Proof.
  intros k result Hreturned. unfold result in *.
  destruct (decide (preconditions T rho R_mix Y c h fr)) as [Hpre|Hpre];
    [|by rewrite compute_mass_sources_rejects in Hreturned].
  clear Hreturned.
  destruct Hpre as (HT & Hrho & HR & HY & Hc & Hh & Hsources & Hwork).
  set (rates := ReactionSet.compute_reaction_rates _ _ _ _ _ _ _ _).
  set (P := λ fr : Kinetics.frame NumericType,
              Kinetics._net_reaction_rates (Kinetics.this fr) = rates).
  assert (Hassign : ∀ op i v s, P s → P (Kinetics.mass_sources_assign op i v s).2).
  { intros op i v s Hs. unfold Kinetics.mass_sources_assign.
    by case_bool_decide. }
  pass_assertions.
  apply (bind_preserves P); [| |done].
  - intros s. apply for_range_preserves. clear s. intros rxn.
    apply bind_preserves.
    { intros s Hs. unfold Kinetics.net_reaction_rates_at. by destruct (_ !! _). }
    intros rate. apply bind_preserves.
    + intros s. apply for_range_preserves. intros r. apply Hassign.
    + intros _ s. apply for_range_preserves. intros p. apply Hassign.
  - intros _ s. apply for_range_preserves. intros i. apply Hassign.
Qed.

End MoreProperties.

Section MoreResults.
Context {NumericType : Type} `{Numeric NumericType}.

(** Entries that do not name [s] leave entry [s] alone. *)
Lemma lookup_apply_entries_absent op rate entries
    (sources : list NumericType) s :
  Forall (λ e, e.1 ≠ s) entries →
  apply_entries op rate entries sources !! s = sources !! s.
Proof.
  revert sources. induction entries as [|[id stoich] entries IH];
    intros sources Habsent; [done|].
  apply Forall_cons in Habsent as [Hid Habsent]. cbn in Hid.
  change (apply_entries op rate ((id, stoich) :: entries) sources)
    with (apply_entries op rate entries
            (alter (λ x, op x (num_of_uint stoich * rate)%num) id sources)).
  by rewrite IH, list_lookup_alter_ne.
Qed.

Lemma lookup_accumulate_absent reactions rates (sources : list NumericType) s :
  Forall (λ reaction,
            Forall (λ e, e.1 ≠ s) (Reaction.reactants reaction) ∧
            Forall (λ e, e.1 ≠ s) (Reaction.products reaction)) reactions →
  accumulate reactions rates sources !! s = sources !! s.
Proof.
  revert rates sources.
  induction reactions as [|reaction reactions IH]; intros [|rate rates] sources
    Habsent; try done.
  apply Forall_cons in Habsent as [[Hreactants Hproducts] Habsent].
  cbn [accumulate]. rewrite IH by done. unfold reaction_contribution.
  by rewrite !lookup_apply_entries_absent.
Qed.

(** The loop over the reactions reads one rate per reaction and no more. *)
Lemma accumulate_take reactions rates (sources : list NumericType) :
  accumulate reactions (take (length reactions) rates) sources
  = accumulate reactions rates sources.
Proof.
  revert rates sources.
  induction reactions as [|reaction reactions IH]; intros [|rate rates] sources;
    try done.
  cbn [length take accumulate]. apply IH.
Qed.

(** Every state an instance reaches is bound to the reaction set it was
    built on. *)
Lemma reachable_bound_to (reaction_set : ReactionSet.t NumericType) k :
  aggregator_fills reaction_set →
  reachable reaction_set k →
  bound_to reaction_set k.
Proof.
  intros Hfills Hreach.
  induction Hreach as [|k T rho R_mix Y c h sources Hreach IH].
  - repeat split. cbn. apply length_replicate.
  - by apply compute_mass_sources_keeps_binding.
Qed.

(** X4.  Species isolation: after a call that returns, the entry of a
    species that takes part in no reaction is the zero the vector was filled
    with, times the molar mass of the species. *)
Theorem absent_species_mass_source T rho R_mix Y c h
    (fr : Kinetics.frame NumericType) s :
  let k := Kinetics.this fr in
  let result := Kinetics.compute_mass_sources T rho R_mix Y c h fr in
  result.1 = Returned () →
  s < Kinetics.n_species k →
  species_absent s k →
  Kinetics.mass_sources result.2 !! s
  = Some (num_zero * ChemicalMixture.M (Kinetics._chem_mixture k) s)%num.
Proof.
  intros k result Hreturned Hs Habsent. unfold result in *.
  apply compute_mass_sources_returned in Hreturned as [Hpre [Hlen Hin]].
  rewrite compute_mass_sources_returns by done.
  cbn [snd Kinetics.mass_sources].
  unfold mass_sources_from_rates, scale_by_molar_mass.
  rewrite list_lookup_imap, lookup_accumulate_absent by done.
  by rewrite lookup_replicate_2.
Qed.

(** X5.  A call reads one rate per reaction: what the aggregator writes
    past the last reaction does not reach [mass_sources]. *)
Theorem rates_past_last_reaction_ignored T rho R_mix Y c h
    (fr : Kinetics.frame NumericType) :
  let k := Kinetics.this fr in
  let truncated :=
    Kinetics.Frame (rebind (truncate_rates (Kinetics._reaction_set k)) k)
                   (Kinetics.mass_sources fr) in
  let result := Kinetics.compute_mass_sources T rho R_mix Y c h fr in
  let result' := Kinetics.compute_mass_sources T rho R_mix Y c h truncated in
  result.1 = Returned () →
  result'.1 = Returned () ∧
  Kinetics.mass_sources result'.2 = Kinetics.mass_sources result.2.
Proof.
  intros k truncated result result' Hreturned. unfold result, result' in *.
  apply compute_mass_sources_returned in Hreturned as [Hpre [Hlen Hin]].
  rewrite (compute_mass_sources_returns T rho R_mix Y c h fr) by done.
  rewrite compute_mass_sources_returns; [|done..|].
  - cbn [fst snd Kinetics.mass_sources]. split; [done|].
    unfold mass_sources_from_rates. cbn.
    f_equal. apply accumulate_take.
  - cbn. rewrite length_take. subst k.
    unfold Kinetics.n_reactions, ReactionSet.n_reactions in *. cbn in *. lia.
Qed.

(** X6.  A call that is valid on the instance the constructor leaves stays
    valid for the life of the instance: in every state the instance reaches
    the call returns, so the assertion on the work array never fails. *)
Theorem valid_call_returns_on_reachable
    (reaction_set : ReactionSet.t NumericType) k T rho R_mix Y c h sources :
  aggregator_fills reaction_set →
  species_in_range (Kinetics.new reaction_set) →
  preconditions T rho R_mix Y c h
    (Kinetics.Frame (Kinetics.new reaction_set) sources) →
  reachable reaction_set k →
  (Kinetics.compute_mass_sources T rho R_mix Y c h
     (Kinetics.Frame k sources)).1 = Returned ().
Proof.
  intros Hfills Hin (HT & Hrho & HR & HY & Hc & Hh & Hsources & Hwork) Hreach.
  destruct (reachable_bound_to reaction_set k Hfills Hreach)
    as (Hset & Hmix & Hlen).
  unfold Kinetics.reaction_set in Hset.
  unfold Kinetics.n_species in *. cbn in HY, Hc, Hh, Hsources.
  rewrite compute_mass_sources_returns; [done|..].
  - unfold preconditions, Kinetics.n_species, Kinetics.n_reactions. cbn.
    by rewrite Hset, Hmix.
  - unfold species_in_range, Kinetics.n_species in *. cbn in *.
    by rewrite Hset, Hmix.
  - cbn. rewrite Hset, Hfills, Hlen. unfold Kinetics.n_reactions. cbn.
    by rewrite Hset.
Qed.

End MoreResults.

(** ** Beyond the claims: linearity and stoichiometry in exact arithmetic *)

Section MoreExact.
Context {NumericType : Type} `{ExactArithmetic NumericType}.

#[local] Set Default Proof Using "Type*".

Add Ring numeric_ring_more : exact_ring.

Lemma num_sum_scaled_rates factor s reactions rates :
  num_sum (zip_with (λ reaction rate, rate * net_stoichiometry s reaction)%num
             reactions (map (num_mul factor) rates))
  = (factor * num_sum (zip_with (λ reaction rate,
                                   rate * net_stoichiometry s reaction)%num
                         reactions rates))%num.
Proof.
  revert rates. induction reactions as [|reaction reactions IH];
    intros [|rate rates]; cbn [map zip_with];
    rewrite ?num_sum_cons; change (num_sum []) with (@num_zero NumericType _);
    try ring.
  rewrite IH. ring.
Qed.

Lemma mass_sources_from_scaled_rates (k : Kinetics.t NumericType) factor rates :
  mass_sources_from_rates k (map (num_mul factor) rates)
  = map (num_mul factor) (mass_sources_from_rates k rates).
Proof.
  apply list_eq. intros s. rewrite list_lookup_fmap.
  destruct (decide (s < Kinetics.n_species k)) as [Hs|Hs].
  - rewrite !lookup_mass_sources_from_rates by done. cbn. f_equal.
    unfold mass_source_formula. rewrite num_sum_scaled_rates. ring.
  - rewrite !(lookup_ge_None_2 (mass_sources_from_rates _ _));
      [done|rewrite length_mass_sources_from_rates; lia..].
Qed.

Lemma num_sum_added_rates s reactions rates1 rates2 :
  length rates1 = length rates2 →
  num_sum (zip_with (λ reaction rate, rate * net_stoichiometry s reaction)%num
             reactions (zip_with num_add rates1 rates2))
  = (num_sum (zip_with (λ reaction rate, rate * net_stoichiometry s reaction)%num
                reactions rates1)
     + num_sum (zip_with (λ reaction rate, rate * net_stoichiometry s reaction)%num
                  reactions rates2))%num.
Proof.
  revert rates1 rates2. induction reactions as [|reaction reactions IH];
    intros [|rate1 rates1] [|rate2 rates2] Hlen; try done;
    cbn [zip_with]; rewrite ?num_sum_cons;
    change (num_sum []) with (@num_zero NumericType _); try ring.
  rewrite IH by (cbn in Hlen; lia). ring.
Qed.

Lemma mass_sources_from_added_rates (k : Kinetics.t NumericType) rates1 rates2 :
  length rates1 = length rates2 →
  mass_sources_from_rates k (zip_with num_add rates1 rates2)
  = zip_with num_add (mass_sources_from_rates k rates1)
                     (mass_sources_from_rates k rates2).
Proof.
  intros Hlen. apply list_eq. intros s. rewrite lookup_zip_with.
  destruct (decide (s < Kinetics.n_species k)) as [Hs|Hs].
  - rewrite !lookup_mass_sources_from_rates by done. cbn. f_equal.
    unfold mass_source_formula. rewrite num_sum_added_rates by done. ring.
  - rewrite !(lookup_ge_None_2 (mass_sources_from_rates _ _));
      [done|rewrite length_mass_sources_from_rates; lia..].
Qed.

Lemma num_sum_same_net_stoichiometry s reactions reactions' rates :
  Forall2 same_net_stoichiometry reactions reactions' →
  num_sum (zip_with (λ reaction rate, rate * net_stoichiometry s reaction)%num
             reactions rates)
  = num_sum (zip_with (λ reaction rate, rate * net_stoichiometry s reaction)%num
               reactions' rates).
Proof.
  intros Hsame. revert rates.
  induction Hsame as [|reaction reaction' reactions reactions' Hnet Hsame IH];
    intros [|rate rates]; try done.
  cbn [zip_with]. by rewrite !num_sum_cons, IH, (Hnet s).
Qed.

(** X7.  Scaling linearity: with every rate of the aggregator times a
    factor, a call that returned returns again and leaves every mass source
    times the factor. *)
Theorem scaled_rates_scale_mass_sources T rho R_mix Y c h factor
    (fr : Kinetics.frame NumericType) :
  let k := Kinetics.this fr in
  let scaled :=
    Kinetics.Frame (rebind (scale_rates factor (Kinetics._reaction_set k)) k)
                   (Kinetics.mass_sources fr) in
  let result := Kinetics.compute_mass_sources T rho R_mix Y c h fr in
  let result' := Kinetics.compute_mass_sources T rho R_mix Y c h scaled in
  result.1 = Returned () →
  result'.1 = Returned () ∧
  Kinetics.mass_sources result'.2
  = map (num_mul factor) (Kinetics.mass_sources result.2).
Proof.
  intros k scaled result result' Hreturned. unfold result, result' in *.
  apply compute_mass_sources_returned in Hreturned as [Hpre [Hlen Hin]].
  rewrite (compute_mass_sources_returns T rho R_mix Y c h fr) by done.
  rewrite compute_mass_sources_returns; [|done..|].
  - cbn [fst snd Kinetics.mass_sources]. split; [done|].
    apply (mass_sources_from_scaled_rates k).
  - cbn. rewrite length_map. subst k.
    unfold Kinetics.n_reactions, ReactionSet.n_reactions in *. cbn in *. lia.
Qed.

(** X8.  Additivity: when the aggregator writes the entrywise sum of the
    rates of two aggregators, each of which fills the work array, a valid
    call leaves the entrywise sum of the mass sources the two leave. *)
Theorem added_rates_add_mass_sources T rho R_mix Y c h aggregator1 aggregator2
    (fr : Kinetics.frame NumericType) :
  let k := Kinetics.this fr in
  let bound_with reaction_set :=
    Kinetics.Frame (rebind reaction_set k) (Kinetics.mass_sources fr) in
  let run reaction_set :=
    Kinetics.compute_mass_sources T rho R_mix Y c h (bound_with reaction_set) in
  let result1 := run (with_aggregator aggregator1 (Kinetics._reaction_set k)) in
  let result2 := run (with_aggregator aggregator2 (Kinetics._reaction_set k)) in
  let result := run (add_rates aggregator1 aggregator2 (Kinetics._reaction_set k)) in
  preconditions T rho R_mix Y c h fr →
  species_in_range k →
  length (aggregator1 T rho R_mix Y c h (Kinetics._net_reaction_rates k))
  = Kinetics.n_reactions k →
  length (aggregator2 T rho R_mix Y c h (Kinetics._net_reaction_rates k))
  = Kinetics.n_reactions k →
  result1.1 = Returned () ∧ result2.1 = Returned () ∧ result.1 = Returned () ∧
  Kinetics.mass_sources result.2
  = zip_with num_add (Kinetics.mass_sources result1.2)
                     (Kinetics.mass_sources result2.2).
Proof.
  intros k bound_with run result1 result2 result Hpre Hin Hlen1 Hlen2.
  unfold result1, result2, result, run, bound_with. subst k.
  unfold Kinetics.n_reactions, ReactionSet.n_reactions in Hlen1, Hlen2.
  rewrite !compute_mass_sources_returns; try done.
  - cbn [fst snd Kinetics.mass_sources]. repeat split.
    apply (mass_sources_from_added_rates (Kinetics.this fr)). cbn. congruence.
  - cbn. rewrite length_zip_with.
    unfold Kinetics.n_reactions, ReactionSet.n_reactions. cbn. lia.
  - cbn. unfold Kinetics.n_reactions, ReactionSet.n_reactions. cbn. lia.
  - cbn. unfold Kinetics.n_reactions, ReactionSet.n_reactions. cbn. lia.
Qed.

(** X9.  The mass sources depend on a reaction through its net
    stoichiometric coefficients only: replacing the reactions by reactions
    with the same net coefficient of every species (entries reordered,
    split, merged, of coefficient zero, or cancelled between the two sides)
    leaves the mass sources of a valid call as they were. *)
Theorem same_net_stoichiometry_same_mass_sources T rho R_mix Y c h reactions'
    (fr : Kinetics.frame NumericType) :
  let k := Kinetics.this fr in
  let k' := rebind (with_reactions reactions' (Kinetics._reaction_set k)) k in
  let result := Kinetics.compute_mass_sources T rho R_mix Y c h fr in
  let result' :=
    Kinetics.compute_mass_sources T rho R_mix Y c h
      (Kinetics.Frame k' (Kinetics.mass_sources fr)) in
  Forall2 same_net_stoichiometry
    (ReactionSet.reactions (Kinetics._reaction_set k)) reactions' →
  species_in_range k' →
  result.1 = Returned () →
  result'.1 = Returned () ∧
  Kinetics.mass_sources result'.2 = Kinetics.mass_sources result.2.
Proof.
  destruct fr as [k0 sources]. intros k k' result result'.
  subst result result' k' k. cbn [Kinetics.this Kinetics.mass_sources].
  set (k1 := rebind (with_reactions reactions' (Kinetics._reaction_set k0)) k0).
  intros Hsame Hin' Hreturned.
  apply compute_mass_sources_returned in Hreturned as [Hpre [Hlen Hin]].
  cbn [Kinetics.this] in Hlen, Hin.
  pose proof (Forall2_length _ _ _ Hsame) as Hcount.
  rewrite (compute_mass_sources_returns T rho R_mix Y c h
             (Kinetics.Frame k0 sources)) by done.
  destruct Hpre as (HT & Hrho & HR & HY & Hc & Hh & Hsources & Hwork).
  rewrite compute_mass_sources_returns; [|try done..].
  - cbn [fst snd Kinetics.mass_sources Kinetics.this]. split; [done|].
    apply list_eq. intros s.
    destruct (decide (s < Kinetics.n_species k0)) as [Hs|Hs].
    + rewrite (lookup_mass_sources_from_rates k0) by done.
      rewrite (lookup_mass_sources_from_rates k1) by done.
      f_equal. unfold mass_source_formula. cbn. f_equal.
      symmetry. by apply num_sum_same_net_stoichiometry.
    + rewrite !(lookup_ge_None_2 (mass_sources_from_rates _ _)); [done|..];
        rewrite length_mass_sources_from_rates;
        change (Kinetics.n_species k1) with (Kinetics.n_species k0); lia.
  - repeat split; try done. cbn.
    unfold Kinetics.n_reactions, ReactionSet.n_reactions in *. cbn in *.
    by rewrite <- Hcount.
  - cbn. unfold Kinetics.n_reactions, ReactionSet.n_reactions in *.
    cbn in *. lia.
Qed.

End MoreExact.

(** ** The further properties at concrete calls *)

(** A reaction that names a species outside the mixture: the call indexes
    [mass_sources] past its end. *)
Example stray_species_out_of_bounds :
  (Z_call Z_stray_frame).1 = OutOfBounds.
Proof. reflexivity. Qed.

(** X3 at the integer call: the work array holds the rate 3. *)
Lemma returned_work_array_holds_rates_witness :
  (Z_call Z_frame).1 = Returned () ∧
  Kinetics._net_reaction_rates (Kinetics.this (Z_call Z_frame).2) = [3%Z].
Proof.
  split; [reflexivity|].
  exact (returned_work_array_holds_rates
           300%Z 1%Z 287%Z [1; 0]%Z [1; 1]%Z [0; 0]%Z Z_frame eq_refl).
Defined.

(** X4 at a third species that no reaction names: its entry is zero. *)
Lemma absent_species_mass_source_witness :
  species_absent 2 (Kinetics.this Z_spectator_frame) ∧
  Kinetics.mass_sources (Z_spectator_call Z_spectator_frame).2 !! 2 = Some 0%Z.
Proof.
  assert (Habsent : species_absent 2 (Kinetics.this Z_spectator_frame))
    by (repeat constructor; cbn; lia).
  split; [exact Habsent|].
  refine (absent_species_mass_source
            300%Z 1%Z 287%Z [1; 0; 0]%Z [1; 1; 1]%Z [0; 0; 0]%Z
            Z_spectator_frame 2 eq_refl _ Habsent).
  cbn. lia.
Defined.

(** X5 at an aggregator that writes the rates 3 and 9 for one reaction. *)
Lemma rates_past_last_reaction_ignored_witness :
  Kinetics._net_reaction_rates (Kinetics.this (Z_call Z_long_rates_frame).2)
  = [3; 9]%Z ∧
  Kinetics.mass_sources (Z_call Z_long_rates_frame).2 = [-6; 12]%Z ∧
  Kinetics.mass_sources
    (Z_call
       (Kinetics.Frame
          (rebind
             (truncate_rates
                (Kinetics._reaction_set (Kinetics.this Z_long_rates_frame)))
             (Kinetics.this Z_long_rates_frame))
          [7; 7]%Z)).2
  = [-6; 12]%Z.
Proof.
  split; [reflexivity|]. split; [reflexivity|].
  pose proof (rates_past_last_reaction_ignored
    300%Z 1%Z 287%Z [1; 0]%Z [1; 1]%Z [0; 0]%Z Z_long_rates_frame eq_refl)
    as [_ Hsame].
  exact Hsame.
Defined.

(** X6 at the state the integer call leaves: the call returns again. *)
Lemma valid_call_returns_on_reachable_witness :
  reachable Z_system (Kinetics.this (Z_call Z_frame).2) ∧
  (Z_call (Kinetics.Frame (Kinetics.this (Z_call Z_frame).2) [7; 7]%Z)).1
  = Returned ().
Proof.
  assert (Hreach : reachable Z_system (Kinetics.this (Z_call Z_frame).2))
    by apply reachable_call, reachable_new.
  split; [exact Hreach|].
  exact (valid_call_returns_on_reachable Z_system _
           300%Z 1%Z 287%Z [1; 0]%Z [1; 1]%Z [0; 0]%Z [7; 7]%Z
           (constant_rates_fills _ _ _) Z_system_in_range Z_call_valid Hreach).
Defined.

(** X7 at the integer call and the factor 5: [-6, 12] becomes [-30, 60]. *)
Lemma scaled_rates_scale_mass_sources_witness :
  Kinetics.mass_sources
    (Z_call (Kinetics.Frame
               (rebind (scale_rates 5%Z Z_system) (Kinetics.new Z_system))
               [7; 7]%Z)).2
  = [-30; 60]%Z.
Proof.
  pose proof (scaled_rates_scale_mass_sources
    300%Z 1%Z 287%Z [1; 0]%Z [1; 1]%Z [0; 0]%Z 5%Z Z_frame eq_refl)
    as [_ Hscaled].
  exact Hscaled.
Defined.

(** X8 at the constant aggregators of rates 3 and 4: [-6, 12] and [-8, 16]
    add up to [-14, 28]. *)
Lemma added_rates_add_mass_sources_witness :
  Kinetics.mass_sources
    (Z_call (Kinetics.Frame
               (rebind (add_rates (constant_rates 3%Z) (constant_rates 4%Z)
                          Z_system)
                       (Kinetics.new Z_system))
               [7; 7]%Z)).2
  = [-14; 28]%Z.
Proof.
  pose proof (added_rates_add_mass_sources
    300%Z 1%Z 287%Z [1; 0]%Z [1; 1]%Z [0; 0]%Z
    (constant_rates 3%Z) (constant_rates 4%Z)
    Z_frame Z_call_valid Z_system_in_range eq_refl eq_refl)
    as (_ & _ & _ & Hadded).
  exact Hadded.
Defined.

(** X9 at "A -> B" against the same reaction written with an entry of
    coefficient zero and a split entry. *)
Lemma same_net_stoichiometry_same_mass_sources_witness :
  Forall2 (same_net_stoichiometry (NumericType := Z))
    [reaction_A_to_B] [reaction_A_to_B_padded] ∧
  Kinetics.mass_sources
    (Z_call (Kinetics.Frame
               (rebind (with_reactions [reaction_A_to_B_padded] Z_system)
                       (Kinetics.new Z_system))
               [7; 7]%Z)).2
  = [-6; 12]%Z.
Proof.
  assert (Hsame : Forall2 (same_net_stoichiometry (NumericType := Z))
                    [reaction_A_to_B] [reaction_A_to_B_padded]).
  { repeat constructor. intros [|[|s]]; reflexivity. }
  split; [exact Hsame|].
  refine (proj2 (same_net_stoichiometry_same_mass_sources
    300%Z 1%Z 287%Z [1; 0]%Z [1; 1]%Z [0; 0]%Z [reaction_A_to_B_padded]
    Z_frame Hsame _ eq_refl)).
  apply (bool_decide_unpack _). by vm_compute.
Defined.

(** ** Reversal in [double] arithmetic *)

(** Rounding does not look at the sign. *)
Lemma binary_round_aux_negb s m e l :
  binary_round_aux prec emax (negb s) m e l
  = SFopp (binary_round_aux prec emax s m e l).
Proof.
  unfold binary_round_aux.
  destruct (shr_fexp prec emax m e l) as [mrs' e'].
  destruct (shr_fexp prec emax _ e' loc_Exact) as [mrs'' e''].
  destruct (shr_m mrs'') as [|p|p]; [done| |done].
  by destruct (Z.leb _ _).
Qed.

Lemma binary_round_negb s m e :
  binary_round prec emax (negb s) m e = SFopp (binary_round prec emax s m e).
Proof.
  unfold binary_round. destruct (shl_align _ _ _) as [mz ez].
  apply binary_round_aux_negb.
Qed.

Lemma SF64mul_opp_r x y : SF64mul x (SFopp y) = SFopp (SF64mul x y).
Proof.
  destruct x as [sx|sx| |sx mx ex], y as [sy|sy| |sy my ey]; cbn;
    rewrite <- ?negb_xorb_r; try done.
  apply binary_round_aux_negb.
Qed.

Lemma SF64mul_opp_l x y : SF64mul (SFopp x) y = SFopp (SF64mul x y).
Proof.
  destruct x as [sx|sx| |sx mx ex], y as [sy|sy| |sy my ey]; cbn;
    rewrite <- ?negb_xorb_l; try done.
  apply binary_round_aux_negb.
Qed.

Lemma cond_Zopp_negb s m : cond_Zopp (negb s) m = Z.opp (cond_Zopp s m).
Proof. destruct s; cbn; lia. Qed.

Lemma binary_normalize_opp m e :
  SFnegated (binary_normalize prec emax m e false)
            (binary_normalize prec emax (Z.opp m) e false).
Proof.
  destruct m as [|p|p]; cbn [Z.opp binary_normalize].
  - right. eauto.
  - left. exact (binary_round_negb false p e).
  - left. exact (binary_round_negb true p e).
Qed.

Lemma SF64sub_negated x x' a :
  SFnegated x x' → SFnegated (SF64sub x a) (SF64sub x' (SFopp a)).
Proof.
  intros [->|[[s ->] [s' ->]]].
  - destruct x as [sx|sx| |sx mx ex], a as [sy|sy| |sy my ey];
      try (left; done);
      try (destruct sx, sy; cbn; first [by left | by (right; eauto)]).
    unfold SF64sub. cbn [SFsub SFopp]. rewrite !cond_Zopp_negb.
    match goal with |- SFnegated (binary_normalize _ _ ?m _ _) _ =>
      pose proof (binary_normalize_opp m (Z.min ex ey)) as Hn end.
    match goal with |- SFnegated _ (binary_normalize _ _ ?m' _ _) =>
      match type of Hn with SFnegated _ (binary_normalize _ _ ?m _ _) =>
        replace m' with m by lia end end.
    exact Hn.
  - destruct a as [sy|sy| |sy my ey]; cbn.
    + right. destruct s, s', sy; cbn; split; eexists; reflexivity.
    + by left.
    + by left.
    + by left.
Qed.

Lemma SF64add_negated x x' a :
  SFnegated x x' → SFnegated (SF64add x a) (SF64add x' (SFopp a)).
Proof.
  intros [->|[[s ->] [s' ->]]].
  - destruct x as [sx|sx| |sx mx ex], a as [sy|sy| |sy my ey];
      try (left; done);
      try (destruct sx, sy; cbn; first [by left | by (right; eauto)]).
    unfold SF64add. cbn [SFadd SFopp]. rewrite !cond_Zopp_negb.
    match goal with |- SFnegated (binary_normalize _ _ ?m _ _) _ =>
      pose proof (binary_normalize_opp m (Z.min ex ey)) as Hn end.
    match goal with |- SFnegated _ (binary_normalize _ _ ?m' _ _) =>
      match type of Hn with SFnegated _ (binary_normalize _ _ ?m _ _) =>
        replace m' with m by lia end end.
    exact Hn.
  - destruct a as [sy|sy| |sy my ey]; cbn.
    + right. destruct s, s', sy; cbn; split; eexists; reflexivity.
    + by left.
    + by left.
    + by left.
Qed.

Lemma SF64mul_negated x x' M :
  SFnegated x x' → SFnegated (SF64mul x M) (SF64mul x' M).
Proof.
  intros [->|[[s ->] [s' ->]]].
  - left. apply SF64mul_opp_l.
  - destruct M as [sy|sy| |sy my ey]; cbn; first [by left | by (right; eauto)].
Qed.

(** From the specification back to the primitive values. *)
Lemma SFnegated_double x x' :
  SFnegated (Prim2SF x) (Prim2SF x') → negated_double x x'.
Proof.
  intros [Hopp|[[s Hs] [s' Hs']]].
  - left. apply Prim2SF_inj. by rewrite FloatAxioms.opp_spec.
  - right. split.
    + rewrite <- (SF2Prim_Prim2SF x), Hs. destruct s; [by right|by left].
    + rewrite <- (SF2Prim_Prim2SF x'), Hs'. destruct s'; [by right|by left].
Qed.

(** The three compound assignments keep two entries negations of each
    other when the rate is negated. *)
Lemma sub_assign_negated (x x' rate : float) stoich :
  SFnegated (Prim2SF x) (Prim2SF x') →
  SFnegated (Prim2SF (x - num_of_uint stoich * rate)%num)
            (Prim2SF (x' - num_of_uint stoich * (- rate))%num).
Proof.
  intros Hx. cbn [num_sub num_mul num_opp double_numeric].
  rewrite !FloatAxioms.sub_spec, !FloatAxioms.mul_spec, FloatAxioms.opp_spec,
    SF64mul_opp_r.
  by apply SF64sub_negated.
Qed.

Lemma add_assign_negated (x x' rate : float) stoich :
  SFnegated (Prim2SF x) (Prim2SF x') →
  SFnegated (Prim2SF (x + num_of_uint stoich * rate)%num)
            (Prim2SF (x' + num_of_uint stoich * (- rate))%num).
Proof.
  intros Hx. cbn [num_add num_mul num_opp double_numeric].
  rewrite !FloatAxioms.add_spec, !FloatAxioms.mul_spec, FloatAxioms.opp_spec,
    SF64mul_opp_r.
  by apply SF64add_negated.
Qed.

Lemma mul_assign_negated (x x' M : float) :
  SFnegated (Prim2SF x) (Prim2SF x') →
  SFnegated (Prim2SF (x * M)%num) (Prim2SF (x' * M)%num).
Proof.
  intros Hx. cbn [num_mul double_numeric]. rewrite !FloatAxioms.mul_spec.
  by apply SF64mul_negated.
Qed.

Lemma subtract_reactants_negated (rate : float) entries sources sources' :
  Forall2 (λ x x', SFnegated (Prim2SF x) (Prim2SF x')) sources sources' →
  Forall2 (λ x x', SFnegated (Prim2SF x) (Prim2SF x'))
    (apply_entries num_sub rate entries sources)
    (apply_entries num_sub (- rate)%num entries sources').
Proof.
  revert sources sources'.
  induction entries as [|[id stoich] entries IH]; intros sources sources' Hs;
    [done|].
  apply IH, Forall2_alter; [done|]. intros x x' _ _. apply sub_assign_negated.
Qed.

Lemma add_products_negated (rate : float) entries sources sources' :
  Forall2 (λ x x', SFnegated (Prim2SF x) (Prim2SF x')) sources sources' →
  Forall2 (λ x x', SFnegated (Prim2SF x) (Prim2SF x'))
    (apply_entries num_add rate entries sources)
    (apply_entries num_add (- rate)%num entries sources').
Proof.
  revert sources sources'.
  induction entries as [|[id stoich] entries IH]; intros sources sources' Hs;
    [done|].
  apply IH, Forall2_alter; [done|]. intros x x' _ _. apply add_assign_negated.
Qed.

Lemma accumulate_negated reactions (rates : list float) sources sources' :
  Forall2 (λ x x', SFnegated (Prim2SF x) (Prim2SF x')) sources sources' →
  Forall2 (λ x x', SFnegated (Prim2SF x) (Prim2SF x'))
    (accumulate reactions rates sources)
    (accumulate reactions (map num_opp rates) sources').
Proof.
  revert rates sources sources'.
  induction reactions as [|reaction reactions IH];
    intros [|rate rates] sources sources' Hs; try done.
  cbn [map accumulate]. apply IH. unfold reaction_contribution.
  by apply add_products_negated, subtract_reactants_negated.
Qed.

Lemma scale_by_molar_mass_negated (f : nat → float) sources sources' :
  Forall2 (λ x x', SFnegated (Prim2SF x) (Prim2SF x')) sources sources' →
  Forall2 (λ x x', SFnegated (Prim2SF x) (Prim2SF x'))
    (imap (λ s x, x * f s)%num sources) (imap (λ s x, x * f s)%num sources').
Proof.
  intros Hs. revert f.
  induction Hs as [|x x' sources sources' Hx Hs IH]; intros f; [done|].
  cbn [imap]. constructor; [by apply mul_assign_negated|].
  apply (IH (f ∘ S)).
Qed.

Lemma mass_sources_from_negated_rates_double (k : Kinetics.t float) rates :
  Forall2 negated_double
    (mass_sources_from_rates k rates)
    (mass_sources_from_rates k (map num_opp rates)).
Proof.
  eapply Forall2_impl; [|intros x x'; apply SFnegated_double].
  unfold mass_sources_from_rates, scale_by_molar_mass.
  apply scale_by_molar_mass_negated, accumulate_negated.
  apply Forall2_replicate. right. split; exists false; reflexivity.
Qed.

(** Reversal in [double]: with every rate negated, a valid call leaves for
    every mass source its negation, a zero staying a zero. *)
Lemma negated_rates_negate_mass_sources_double T rho R_mix Y c h
    (fr : Kinetics.frame float) :
  let k := Kinetics.this fr in
  let rates :=
    ReactionSet.compute_reaction_rates (Kinetics._reaction_set k)
      T rho R_mix Y c h (Kinetics._net_reaction_rates k) in
  let reversed :=
    Kinetics.Frame (rebind (negate_rates (Kinetics._reaction_set k)) k)
                   (Kinetics.mass_sources fr) in
  let result := Kinetics.compute_mass_sources T rho R_mix Y c h fr in
  let result' := Kinetics.compute_mass_sources T rho R_mix Y c h reversed in
  preconditions T rho R_mix Y c h fr →
  species_in_range k →
  length rates = Kinetics.n_reactions k →
  result.1 = Returned () ∧ result'.1 = Returned () ∧
  Forall2 negated_double
    (Kinetics.mass_sources result.2) (Kinetics.mass_sources result'.2).
Proof.
  intros k rates reversed result result' Hpre Hin Hrates.
  unfold result, result'.
  rewrite (compute_mass_sources_returns T rho R_mix Y c h fr)
    by (try done; fold k rates; lia).
  rewrite compute_mass_sources_returns; [|done..|].
  - cbn [fst snd Kinetics.mass_sources]. repeat split.
    apply (mass_sources_from_negated_rates_double k rates).
  - cbn. fold k rates. rewrite length_map.
    unfold Kinetics.n_reactions, ReactionSet.n_reactions in *. cbn. lia.
Qed.

(** ** The corrected claims: exact arithmetic against [double] *)




(** C1 as first stated fails in [double]: for "3A -> A" at the rate next to
    0.1 the loops leave [(0 - 3 * rate) + 1 * rate], rounded at each step,
    which is one unit in the last place away from the formula's
    [rate * (1 - 3)]. *)
Lemma formula_rounds_in_double :
  preconditions 300.0%float 1.25%float 287.0%float
    [1.0]%float [0.25]%float [0.0]%float double_rounding_frame ∧
  species_in_range (Kinetics.this double_rounding_frame) ∧
  double_one_species_call double_rounding_frame
  = (Returned (),
     Kinetics.Frame
       (Kinetics.set_net_reaction_rates [0x1.999999999999ap-4]%float
          (Kinetics.this double_rounding_frame))
       [-0x1.999999999999bp-3]%float) ∧
  mass_source_formula (Kinetics.this double_rounding_frame)
    [0x1.999999999999ap-4]%float 0
  = (-0x1.999999999999ap-3)%float ∧
  Kinetics.mass_sources (double_one_species_call double_rounding_frame).2 !! 0
  ≠ Some (mass_source_formula (Kinetics.this double_rounding_frame)
            [0x1.999999999999ap-4]%float 0).
Proof.
  split; [by repeat split|].
  split; [apply (bool_decide_unpack _); by vm_compute|].
  split; [reflexivity|]. split; [reflexivity|].
  intros Heq. apply (f_equal (λ o, PrimFloat.eqb (default 0%float o)
                                     (-0x1.999999999999ap-3)%float)) in Heq.
  vm_compute in Heq. discriminate.
Qed.

(** C4 as first stated fails in [double]: "2A -> B" with molar masses 1.0
    and 2.0 conserves mass, and at the rate 2^1023 the product [2 * rate]
    overflows; the mass sources are the two infinities and their sum is not
    a number, within no tolerance of zero. *)
Lemma overflow_breaks_conservation :
  preconditions 300.0%float 1.25%float 287.0%float
    [0.5; 0.5]%float [0.25; 0.5]%float [0.0; 0.0]%float double_overflow_frame ∧
  species_in_range (Kinetics.this double_overflow_frame) ∧
  Forall (conserves_mass (Kinetics._chem_mixture (Kinetics.this double_overflow_frame)))
         (ReactionSet.reactions
            (Kinetics._reaction_set (Kinetics.this double_overflow_frame))) ∧
  (double_call double_overflow_frame).1 = Returned () ∧
  Kinetics.mass_sources (double_call double_overflow_frame).2
  = [neg_infinity; infinity] ∧
  num_sum (Kinetics.mass_sources (double_call double_overflow_frame).2) = nan ∧
  (∀ tolerance,
     PrimFloat.leb
       (abs (num_sum (Kinetics.mass_sources (double_call double_overflow_frame).2)))
       tolerance = false).
Proof.
  split; [by repeat split|].
  split; [apply (bool_decide_unpack _); by vm_compute|].
  split; [by repeat constructor|].
  split; [reflexivity|]. split; [reflexivity|]. split; [reflexivity|].
  intros tolerance. rewrite FloatAxioms.leb_spec.
  replace (Prim2SF (abs _)) with S754_nan by reflexivity. done.
Qed.
